(** * Speaker session manager of noti-fin: the Bluetooth service hook

    A shallow embedding of [useBluetoothService] (the hook of
    app/services/BluetoothService.tsx) and the properties of its
    device registry, phrase dictionary and speech dispatch.

    Conventions of the embedding.
    - A JavaScript string is a [string]: the bytes of its UTF-8 encoding.
      Substring search on the bytes agrees with substring search on the
      characters.  [toLowerCase] is the built-in: its case tables are a
      parameter (the class [LowerCasing]), and every definition and
      theorem that lower-cases a string holds for all of them.
    - The hook's React state is the record [State]; state setters write
      the store, while a running call keeps reading the values of the
      render that created it (its snapshot).
    - What the hook does to the outside (alerts, calls of the speech
      engine) is logged in the state, so that it can be counted.
    - [Math.random] reads a tape of rational draws. *)

From Stdlib Require Import List String Ascii Bool Arith ZArith NArith QArith Lia.
From Stdlib Require Import Qround.
Import ListNotations.

Local Open Scope string_scope.
Local Open Scope list_scope.

(** ** JavaScript strings *)

Module JsString.

(** [c.toLowerCase()] on one ASCII code unit. *)
Definition lower_ascii (c : ascii) : ascii :=
  let n := nat_of_ascii c in
  if (65 <=? n)%nat && (n <=? 90)%nat then ascii_of_nat (n + 32) else c.

(** The letters A to Z of a string lower-cased, every other byte kept. *)
Fixpoint lower_letters (s : string) : string :=
  match s with
  | EmptyString => EmptyString
  | String c r => String (lower_ascii c) (lower_letters r)
  end.

(** A string of ASCII characters only. *)
Fixpoint is_ascii (s : string) : bool :=
  match s with
  | EmptyString => true
  | String c r => (nat_of_ascii c <? 128)%nat && is_ascii r
  end.

(** [s.includes(pat)]: [pat] occurs in [s] at some position. *)
Fixpoint includes (s pat : string) : bool :=
  String.prefix pat s
  || match s with
     | EmptyString => false
     | String _ r => includes r pat
     end.

(** Truthiness of a string: only the empty string is falsy. *)
Definition truthy (s : string) : bool :=
  match s with EmptyString => false | _ => true end.

(** [s.charAt(i)]: the one-character string at [i], or the empty string
    out of range. *)
Definition charAt (s : string) (i : Z) : string :=
  if (i <? 0)%Z then ""
  else match String.get (Z.to_nat i) s with
       | Some c => String c ""
       | None => ""
       end.

(** [s.toLowerCase()].  The built-in is not code of this repository: it
    lower-cases every cased letter of Unicode, by the case tables of the
    Unicode version the JavaScript engine ships.  Those tables are a
    parameter of the development.  What is used of them holds of every
    version, by the definition of [String.prototype.toLowerCase] in
    ECMA-262 over the Unicode Default Case Conversion:
    - an ASCII string is mapped letter by letter, A to Z becoming a to z;
    - so are the ASCII characters that start a string, whatever follows
      them (the one rule that looks at neighbours, final sigma, changes
      a Greek letter only);
    - a lower-cased string is its own lower-casing;
    - only the empty string is lower-cased to the empty string. *)
Class LowerCasing := {
  toLowerCase : string -> string;
  toLowerCase_ascii :
    forall s, is_ascii s = true -> toLowerCase s = lower_letters s;
  toLowerCase_ascii_prefix :
    forall a b, is_ascii a = true ->
      exists b', toLowerCase (a ++ b) = (lower_letters a ++ b')%string;
  toLowerCase_idempotent :
    forall s, toLowerCase (toLowerCase s) = toLowerCase s;
  toLowerCase_truthy :
    forall s, truthy (toLowerCase s) = truthy s
}.

(** The case tables cut down to ASCII: the instance the theorems are
    evaluated with at concrete inputs. *)
#[global] Instance ascii_lowering : LowerCasing.
Proof.
  refine {| toLowerCase := lower_letters |}.
  - reflexivity.
  - intros a b _. exists (lower_letters b).
    induction a as [|c a IH]; cbn [String.append lower_letters]; [reflexivity|].
    now rewrite IH.
  - intros s. induction s as [|c s IH]; cbn [lower_letters]; [reflexivity|].
    rewrite IH. f_equal.
    destruct c as [[] [] [] [] [] [] [] []]; reflexivity.
  - intros s. now destruct s.
Defined.

End JsString.
Import JsString.

(** ** JavaScript objects used as dictionaries

    An object with string keys and string values is the list of its own
    properties in the order [Object.entries] enumerates them: the keys that
    are array indices (canonical decimal numerals below 2^32 - 1) first,
    in ascending numeric order, then every other key in the order in which
    it was first created. *)

Module JsObject.

Definition t := list (string * string).

Definition is_digit (c : ascii) : bool :=
  let n := nat_of_ascii c in (48 <=? n)%nat && (n <=? 57)%nat.

Fixpoint all_digits (s : string) : bool :=
  match s with
  | EmptyString => true
  | String c r => is_digit c && all_digits r
  end.

Fixpoint digits_value (acc : N) (s : string) : N :=
  match s with
  | EmptyString => acc
  | String c r => digits_value (10 * acc + (N_of_ascii c - 48))%N r
  end.

(** The array index a key denotes, if it is one: ["0"], or digits with no
    leading zero, of value at most 2^32 - 2. *)
Definition array_index (k : string) : option N :=
  match k with
  | EmptyString => None
  | String c r =>
      if all_digits k
         && (negb (Ascii.eqb c "0"%char) || String.eqb r "")
         && (String.length k <=? 10)%nat
         && (digits_value 0 k <? 4294967295)%N
      then Some (digits_value 0 k)
      else None
  end.

Definition has_key (k : string) (o : t) : bool :=
  existsb (fun e => String.eqb (fst e) k) o.

(** [o[k]]. *)
Fixpoint get (k : string) (o : t) : option string :=
  match o with
  | [] => None
  | (k', v') :: r => if String.eqb k' k then Some v' else get k r
  end.

(** Assignment to a property that exists: the value changes, the place
    in the enumeration does not. *)
Fixpoint overwrite (k v : string) (o : t) : t :=
  match o with
  | [] => []
  | (k', v') :: r =>
      if String.eqb k' k then (k', v) :: r else (k', v') :: overwrite k v r
  end.

(** Creation of the array-index property [k] (of index [n]): it goes
    before the first property that is not an array index or has a
    larger index. *)
Fixpoint insert_index (n : N) (k v : string) (o : t) : t :=
  match o with
  | [] => [(k, v)]
  | (k', v') :: r =>
      match array_index k' with
      | Some n' =>
          if (n <? n')%N then (k, v) :: o
          else (k', v') :: insert_index n k v r
      | None => (k, v) :: o
      end
  end.

(** [{ ...o, [k]: v }]: the copy made by the spread enumerates like [o];
    then [k] is assigned. *)
Definition set (k v : string) (o : t) : t :=
  if has_key k o then overwrite k v o
  else match array_index k with
       | Some n => insert_index n k v o
       | None => o ++ [(k, v)]
       end.

(** [Object.entries(o)]. *)
Definition entries (o : t) : list (string * string) := o.

(** An object literal: its properties are created one after another. *)
Definition literal (l : list (string * string)) : t :=
  fold_left (fun o e => set (fst e) (snd e) o) l [].

End JsObject.

(** ** Voices of the speech engine *)

Module Voice.
(** [interface Voice]. *)
Record t := mk {
  id : option string;
  name : option string;
  language : option string;
  quality : option Z;
  isDefault : option bool
}.
End Voice.

(** ** The hook, for any case tables *)

Section Hook.

Context {L : LowerCasing}.

(** ** The phrase dictionary *)

(** The properties of the literal [DEFAULT_VIETNAMESE_PHRASES], as written. *)
Definition default_entries : list (string * string) :=
    [ ("hello", "Xin chào");
      ("thank you", "Cảm ơn bạn");
      ("goodbye", "Tạm biệt");
      ("welcome", "Chào mừng");
      ("how are you", "Bạn khỏe không");
      ("good morning", "Chào buổi sáng");
      ("good afternoon", "Chào buổi chiều");
      ("good evening", "Chào buổi tối");
      ("please", "Làm ơn");
      ("sorry", "Xin lỗi");
      ("what is your name", "Tên bạn là gì");
      ("my name is", "Tên tôi là");
      ("nice to meet you", "Rất vui được gặp bạn");
      ("payment successful", "Thanh toán thành công");
      ("payment received", "Đã nhận thanh toán") ].

(** The object [DEFAULT_VIETNAMESE_PHRASES]. *)
Definition DEFAULT_VIETNAMESE_PHRASES : JsObject.t :=
  JsObject.literal default_entries.

(** The [for ... of Object.entries(...)] loop of [speak]: the first entry
    whose key occurs in [lowerMsg] assigns [textToSpeak] and breaks. *)
Fixpoint translate_loop (lowerMsg : string) (es : list (string * string))
    (textToSpeak : string) : string :=
  match es with
  | [] => textToSpeak
  | (english, vietnamese) :: rest =>
      if includes lowerMsg english then vietnamese
      else translate_loop lowerMsg rest textToSpeak
  end.

(** The translation step of [speak] (lines 615-632): [textToSpeak] starts
    as the message itself. *)
Definition translate (phrases : JsObject.t) (message : string) : string :=
  let textToSpeak := message in
  let lowerMsg := toLowerCase message in
  translate_loop lowerMsg (JsObject.entries phrases) textToSpeak.


(** ** Devices and the state of the hook *)

(** [interface BluetoothDevice]; an optional field is an [option]. *)
Record BluetoothDevice := mkDevice {
  name : option string;
  id : string;
  address : option string;
  connected : option bool
}.

(** [{ ...d, connected: b }]. *)
Definition with_connected (b : bool) (d : BluetoothDevice) : BluetoothDevice :=
  {| name := name d; id := id d; address := address d; connected := Some b |}.

(** A device the registry reports as connected. *)
Definition is_connected (d : BluetoothDevice) : bool :=
  match connected d with Some true => true | _ => false end.

(** The dialogs the hook raises with [Alert.alert], by their titles. *)
Inductive AlertBox :=
| SystemConnectionRequired (device : BluetoothDevice)
| DeviceDisconnected
| CheckConnectionInSettings
| NoDevicesFound
| InputError
| PhraseAdded (english vietnamese : string)
| NoDeviceConnected
| TtsError.

(** The calls the hook makes on the active speech engine. *)
Inductive TtsCall :=
| CallGetInitStatus
| CallAddEventListener (event : string)
| CallVoices
| CallSetDefaultLanguage (language : string)
| CallSetDefaultRate (rate : Q)
| CallSetDefaultPitch (pitch : Q)
| CallSpeak (text : string)
| CallStop.

(** The [useState] cells and the [useRef] cell of the hook, with the two
    logs of its outside effects. *)
Record State := mkState {
  devices : list BluetoothDevice;
  connectedDevice : option BluetoothDevice;
  isEnabled : bool;
  isScanning : bool;
  isSpeaking : bool;
  availableLanguages : list string;
  vietnamesePhrases : JsObject.t;
  alerts : list AlertBox;
  ttsCalls : list TtsCall
}.

Definition setDevices (f : list BluetoothDevice -> list BluetoothDevice) (st : State) : State :=
  mkState (f (devices st)) (connectedDevice st) (isEnabled st) (isScanning st)
          (isSpeaking st) (availableLanguages st) (vietnamesePhrases st)
          (alerts st) (ttsCalls st).

Definition setConnectedDevice (d : option BluetoothDevice) (st : State) : State :=
  mkState (devices st) d (isEnabled st) (isScanning st)
          (isSpeaking st) (availableLanguages st) (vietnamesePhrases st)
          (alerts st) (ttsCalls st).

Definition setIsScanning (b : bool) (st : State) : State :=
  mkState (devices st) (connectedDevice st) (isEnabled st) b
          (isSpeaking st) (availableLanguages st) (vietnamesePhrases st)
          (alerts st) (ttsCalls st).

Definition setIsSpeaking (b : bool) (st : State) : State :=
  mkState (devices st) (connectedDevice st) (isEnabled st) (isScanning st)
          b (availableLanguages st) (vietnamesePhrases st)
          (alerts st) (ttsCalls st).

Definition setAvailableLanguages (f : list string -> list string) (st : State) : State :=
  mkState (devices st) (connectedDevice st) (isEnabled st) (isScanning st)
          (isSpeaking st) (f (availableLanguages st)) (vietnamesePhrases st)
          (alerts st) (ttsCalls st).

Definition setPhrases (o : JsObject.t) (st : State) : State :=
  mkState (devices st) (connectedDevice st) (isEnabled st) (isScanning st)
          (isSpeaking st) (availableLanguages st) o
          (alerts st) (ttsCalls st).

(** [Alert.alert(...)]. *)
Definition alert (a : AlertBox) (st : State) : State :=
  mkState (devices st) (connectedDevice st) (isEnabled st) (isScanning st)
          (isSpeaking st) (availableLanguages st) (vietnamesePhrases st)
          (alerts st ++ [a]) (ttsCalls st).

(** A call on [ActiveTts]. *)
Definition tts (c : TtsCall) (st : State) : State :=
  mkState (devices st) (connectedDevice st) (isEnabled st) (isScanning st)
          (isSpeaking st) (availableLanguages st) (vietnamesePhrases st)
          (alerts st) (ttsCalls st ++ [c]).

(** [MOCK_DEVICES]. *)
Definition MOCK_DEVICES : list BluetoothDevice :=
  [ mkDevice (Some "Generic Bluetooth Speaker") "00:11:22:33:44:55"
             (Some "00:11:22:33:44:55") (Some false);
    mkDevice (Some "WYS-2301BT") "00:22:33:44:55:66"
             (Some "00:22:33:44:55:66") (Some false);
    mkDevice (Some "Portable Speaker") "00:33:44:55:66:77"
             (Some "00:33:44:55:66:77") (Some false) ].

(** The state of the first render: the initial values of the cells. *)
Definition initial_state : State :=
  mkState [] None true false false [] DEFAULT_VIETNAMESE_PHRASES [] [].

(** The state once the mount effect has run [setDevices(MOCK_DEVICES)]. *)
Definition mounted_state : State :=
  setDevices (fun _ => MOCK_DEVICES) initial_state.

(** The number of devices of the registry in Connected state. *)
Definition connected_count (st : State) : nat :=
  List.length (filter is_connected (devices st)).

(** No device of the list is flagged connected. *)
Definition unflagged (l : list BluetoothDevice) : bool :=
  forallb (fun d => negb (is_connected d)) l.

(** ** Random numbers *)

(** The draws [Math.random] will return, and how many were consumed. *)
Record Rng := mkRng { tape : nat -> Q; pos : nat }.

(** Every draw of [Math.random] lies in [0, 1). *)
Definition tape_ok (r : Rng) : Prop :=
  forall n, (0 <= tape r n)%Q /\ (tape r n < 1)%Q.

Definition Math_random (r : Rng) : Q * Rng :=
  (tape r (pos r), mkRng (tape r) (S (pos r))).

Definition hexChars : string := "0123456789ABCDEF".

(** [hexChars.charAt(Math.floor(Math.random() * hexChars.length))]. *)
Definition random_hex (r : Rng) : string * Rng :=
  let (x, r1) := Math_random r in
  (charAt hexChars (Qfloor (x * inject_Z (Z.of_nat (String.length hexChars)))), r1).

(** [Array(2).fill(0).map(() => ...).join("")]. *)
Definition random_section (r : Rng) : string * Rng :=
  let (a, r1) := random_hex r in
  let (b, r2) := random_hex r1 in
  ((a ++ b)%string, r2).

(** The [for] loop of [generateRandomId], from index [i], [n] rounds. *)
Fixpoint generateRandomId_loop (n i : nat) (result : string) (r : Rng) : string * Rng :=
  match n with
  | O => (result, r)
  | S n' =>
      let (section, r1) := random_section r in
      generateRandomId_loop n' (S i)
        (result ++ ((if (0 <? i)%nat then ":" else "") ++ section))%string r1
  end.

Definition generateRandomId (r : Rng) : string * Rng :=
  generateRandomId_loop 6 0 "" r.

(** ** Discovery *)

(** The array literal [additionalDevices]: eight identifiers are generated,
    in the order the literal lists them. *)
Definition additionalDevices (r : Rng) : list BluetoothDevice * Rng :=
  let (i1, r1) := generateRandomId r in
  let (a1, r2) := generateRandomId r1 in
  let (i2, r3) := generateRandomId r2 in
  let (a2, r4) := generateRandomId r3 in
  let (i3, r5) := generateRandomId r4 in
  let (a3, r6) := generateRandomId r5 in
  let (i4, r7) := generateRandomId r6 in
  let (a4, r8) := generateRandomId r7 in
  ([ mkDevice (Some "JBL Flip") i1 (Some a1) (Some false);
     mkDevice (Some "Bose SoundLink") i2 (Some a2) (Some false);
     mkDevice (Some "Sony SRS-XB12") i3 (Some a3) (Some false);
     mkDevice (Some "Anker Soundcore") i4 (Some a4) (Some false) ], r8).

(** [for (let i = 0; i < numToAdd; i++) if (additional[i]) push]: [n]
    rounds are left, the index is [i]. *)
Fixpoint push_loop (additional : list BluetoothDevice) (n i : nat)
    (randomDevices : list BluetoothDevice) : list BluetoothDevice :=
  match n with
  | O => randomDevices
  | S n' =>
      match nth_error additional i with
      | Some d => push_loop additional n' (S i) (randomDevices ++ [d])
      | None => push_loop additional n' (S i) randomDevices
      end
  end.

(** The list [scanForDevices] builds. *)
Definition discover (r : Rng) : list BluetoothDevice * Rng :=
  let randomDevices := MOCK_DEVICES in
  let (x, r1) := Math_random r in
  if negb (Qle_bool x (1 # 2)) then
    let (additional, r2) := additionalDevices r1 in
    let (y, r3) := Math_random r2 in
    let numToAdd := (Qfloor (y * 3) + 1)%Z in
    (push_loop additional (Z.to_nat numToAdd) 0 randomDevices, r3)
  else (randomDevices, r1).

(** [scanForDevices]: the scanning flag is raised, the list is replaced
    wholesale after the delay, the flag is lowered. *)
Definition scanForDevices (r : Rng) (st : State) : State * Rng :=
  let st1 := setIsScanning true st in
  let (randomDevices, r1) := discover r in
  let st2 := setDevices (fun _ => randomDevices) st1 in
  (setIsScanning false st2, r1).

(** ** Connection *)

(** [connectToDevice]: raises the dialog and returns [true]; the state
    changes only when the user answers the dialog with OK. *)
Definition connectToDevice (device : BluetoothDevice) (st : State) : bool * State :=
  (true, alert (SystemConnectionRequired device) st).

(** The [onPress] handler of the OK button of that dialog. *)
Definition pressOK (device : BluetoothDevice) (st : State) : State :=
  let st1 := setConnectedDevice (Some (with_connected true device)) st in
  setDevices
    (map (fun d => if String.eqb (id d) (id device) then with_connected true d else d))
    st1.

(** [connect(D)] succeeding: the call, then OK. *)
Definition connect (device : BluetoothDevice) (st : State) : State :=
  pressOK device (snd (connectToDevice device st)).

(** [disconnectDevice]. *)
Definition disconnectDevice (st : State) : State :=
  match connectedDevice st with
  | None => st
  | Some _ =>
      let st1 := setConnectedDevice None st in
      let st2 := setDevices (map (with_connected false)) st1 in
      alert DeviceDisconnected st2
  end.

(** [checkSystemConnection]. *)
Definition checkSystemConnection (st : State) : State :=
  alert CheckConnectionInSettings st.

(** The predicate both [devices.find] calls of [forceConnectToDevice] use. *)
Definition matches (deviceNameOrAddress : string) (device : BluetoothDevice) : bool :=
  match name device with
  | Some n => truthy n && includes (toLowerCase n) (toLowerCase deviceNameOrAddress)
  | None => false
  end
  || String.eqb (id device) deviceNameOrAddress
  || match address device with
     | Some a => String.eqb a deviceNameOrAddress
     | None => false
     end.

(** [forceConnectToDevice].  [devices] is the constant of the render the
    call was made from: it is read again after the scan, and the scan has
    written the store, not that constant. *)
Definition forceConnectToDevice (deviceNameOrAddress : string) (r : Rng) (st : State)
    : bool * State * Rng :=
  let devices_ := devices st in
  let found := find (matches deviceNameOrAddress) devices_ in
  let '(deviceToConnect, st1, r1) :=
    match found with
    | None =>
        if truthy deviceNameOrAddress then
          let (st', r') := scanForDevices r st in
          (find (matches deviceNameOrAddress) devices_, st', r')
        else (found, st, r)
    | Some _ => (found, st, r)
    end in
  match deviceToConnect with
  | None =>
      if (List.length devices_ =? 0)%nat then
        (false, alert NoDevicesFound st1, r1)
      else if truthy deviceNameOrAddress then
        let (i, r2) := generateRandomId r1 in
        let (a, r3) := generateRandomId r2 in
        let newDevice := mkDevice (Some deviceNameOrAddress) i (Some a) (Some false) in
        let st2 := setDevices (fun prev => prev ++ [newDevice]) st1 in
        let (b, st3) := connectToDevice newDevice st2 in
        (b, st3, r3)
      else (false, st1, r1)
  | Some d =>
      let (b, st2) := connectToDevice d st1 in
      (b, st2, r1)
  end.

(** ** Adding a phrase *)

(** [setCustomVietnamesePhrase]: the guard tests the two arguments for
    truthiness, that is, for being the empty string. *)
Definition setCustomVietnamesePhrase (english vietnamese : string) (st : State) : State :=
  if negb (truthy english) || negb (truthy vietnamese) then
    alert InputError st
  else
    let st1 :=
      setPhrases (JsObject.set (toLowerCase english) vietnamese (vietnamesePhrases st)) st in
    alert (PhraseAdded english vietnamese) st1.

(** The dictionary after a series of [setCustomVietnamesePhrase] calls. *)
Definition add_phrases (l : list (string * string)) (st : State) : State :=
  fold_left (fun s e => setCustomVietnamesePhrase (fst e) (snd e) s) l st.

(** ** The speech engine *)

(** Which implementation [ActiveTts] holds. *)
Inductive Engine := NativeTts | MockTts.

(** What the promise of [ActiveTts.voices()] resolves with, as far as the
    hook can tell values apart. *)
Inductive VoicesValue :=
| Falsy                                        (* null or undefined *)
| VoiceArray (voices : list (option Voice.t))  (* an array; an element may be null *)
| NotArray.                                    (* another truthy value *)

(** What [ActiveTts.voices()] does, with the time in milliseconds at which
    its promise settles. *)
Inductive VoicesBehaviour :=
| Resolves (ms : N) (v : VoicesValue)
| Rejects (ms : N)
| Throws        (* the call itself raises *)
| Hangs.        (* the promise never settles *)

Definition VOICE_TIMEOUT : N := 3000.

(** [[{ language: "vi-VN", name: "Vietnamese (Fallback)" }]]. *)
Definition fallbackVoice : Voice.t :=
  Voice.mk None (Some "Vietnamese (Fallback)") (Some "vi-VN") None None.

Definition fallbackVoices : VoicesValue := VoiceArray [Some fallbackVoice].

(** [result || []]. *)
Definition or_empty (v : VoicesValue) : VoicesValue :=
  match v with Falsy => VoiceArray [] | _ => v end.

(** *** The promise that races the engine against a timer

    Lines 203-221 and lines 520-538 build the same promise.  Its executor
    arms a timer with [setTimeout] and calls [ActiveTts.voices()], on
    whose promise it registers a [then] and a [catch] callback.  Each of
    the three callbacks calls [resolve]; the two of the engine call
    [clearTimeout] first.  The event loop runs the callbacks as they fall
    due. *)

(** The callbacks the executor hands out. *)
Inductive Callback :=
| TimerCallback                          (* the function given to [setTimeout] *)
| ThenCallback (result : VoicesValue)    (* [.then(result => ...)], with the engine's value *)
| CatchCallback.                         (* [.catch(err => ...)] *)

(** How a promise is settled. *)
Inductive Settlement :=
| Fulfilled (v : VoicesValue)
| Rejected.

(** The promise under construction and the event loop around it: when and
    how the promise was settled; the callbacks the loop is still to run,
    each with the time at which it falls due, earliest first; and the
    callbacks it has run, with their times. *)
Record VoicesPromise := mkPromise {
  outcome : option (N * Settlement);
  agenda : list (N * Callback);
  ran : list (N * Callback)
}.

(** A callback enters the agenda behind those that fall due no later. *)
Fixpoint schedule (due : N) (c : Callback) (q : list (N * Callback))
    : list (N * Callback) :=
  match q with
  | [] => [(due, c)]
  | (due', c') :: r =>
      if (due <? due')%N then (due, c) :: q else (due', c') :: schedule due c r
  end.

Definition is_timer (c : Callback) : bool :=
  match c with TimerCallback => true | _ => false end.

(** [setTimeout(callback, delay)] at time [now]. *)
Definition setTimeout (now delay : N) (p : VoicesPromise) : VoicesPromise :=
  mkPromise (outcome p) (schedule (now + delay) TimerCallback (agenda p)) (ran p).

(** [clearTimeout(timeout)]: the timer leaves the agenda. *)
Definition clearTimeout (p : VoicesPromise) : VoicesPromise :=
  mkPromise (outcome p) (filter (fun e => negb (is_timer (snd e))) (agenda p)) (ran p).

(** [resolve(v)] at time [now]: a settled promise stays as it is. *)
Definition resolve (now : N) (v : VoicesValue) (p : VoicesPromise) : VoicesPromise :=
  match outcome p with
  | Some _ => p
  | None => mkPromise (Some (now, Fulfilled v)) (agenda p) (ran p)
  end.

(** An exception that leaves the executor rejects the promise. *)
Definition reject (now : N) (p : VoicesPromise) : VoicesPromise :=
  match outcome p with
  | Some _ => p
  | None => mkPromise (Some (now, Rejected)) (agenda p) (ran p)
  end.

(** [ActiveTts.voices().then(...).catch(...)] called at time [now]: the
    engine's promise settles as its behaviour says, and the callback
    registered for that falls due then. *)
Definition call_voices (b : VoicesBehaviour) (now : N) (p : VoicesPromise)
    : VoicesPromise :=
  match b with
  | Resolves ms v =>
      mkPromise (outcome p) (schedule (now + ms) (ThenCallback v) (agenda p)) (ran p)
  | Rejects ms =>
      mkPromise (outcome p) (schedule (now + ms) CatchCallback (agenda p)) (ran p)
  | Throws => reject now p
  | Hangs => p
  end.

(** The executor, run when the promise is constructed, at time 0. *)
Definition executor (b : VoicesBehaviour) : VoicesPromise :=
  let timeout := setTimeout 0 VOICE_TIMEOUT (mkPromise None [] []) in
  call_voices b 0 timeout.

(** The bodies of the three callbacks, run at time [now]. *)
Definition run_callback (now : N) (c : Callback) (p : VoicesPromise) : VoicesPromise :=
  match c with
  | TimerCallback => resolve now fallbackVoices p
  | ThenCallback result => resolve now (or_empty result) (clearTimeout p)
  | CatchCallback => resolve now fallbackVoices (clearTimeout p)
  end.

(** The event loop: the earliest callback of the agenda is taken out and
    run, at most [rounds] times. *)
Fixpoint event_loop (rounds : nat) (p : VoicesPromise) : VoicesPromise :=
  match rounds with
  | O => p
  | S n =>
      match agenda p with
      | [] => p
      | (due, c) :: rest =>
          event_loop n
            (run_callback due c (mkPromise (outcome p) rest (ran p ++ [(due, c)])))
      end
  end.

(** The promise once the loop has run every callback: no callback adds
    one, so as many rounds as the agenda is long are enough. *)
Definition voicesPromise (b : VoicesBehaviour) : VoicesPromise :=
  let p := executor b in
  event_loop (List.length (agenda p)) p.

(** [try { voices = await new Promise(...) } catch { voices = fallback }]:
    the time at which [await] returns and the value of the voices
    variable then; [None] when the promise is never settled. *)
Definition awaitVoices (b : VoicesBehaviour) : option (N * VoicesValue) :=
  match outcome (voicesPromise b) with
  | Some (now, Fulfilled v) => Some (now, v)
  | Some (now, Rejected) => Some (now, fallbackVoices)
  | None => None
  end.

(** What the code after the [await] sees.  The [await] always returns
    ([detectVoices_run]); the other branch is never taken. *)
Definition detectVoices (b : VoicesBehaviour) : N * VoicesValue :=
  match awaitVoices b with
  | Some r => r
  | None => (0%N, NotArray)
  end.

(** The engine's query is lost to the timer. *)
Definition times_out (b : VoicesBehaviour) : bool :=
  match b with
  | Resolves ms _ | Rejects ms => (VOICE_TIMEOUT <=? ms)%N
  | Throws => false
  | Hangs => true
  end.

(** The engine's query fails before the timer is due. *)
Definition errors (b : VoicesBehaviour) : bool :=
  match b with
  | Resolves _ _ => false
  | Rejects ms => (ms <? VOICE_TIMEOUT)%N
  | Throws => true
  | Hangs => false
  end.

(** [[...new Set(languages)]]: first occurrences, in order. *)
Fixpoint unique (seen l : list string) : list string :=
  match l with
  | [] => []
  | x :: r =>
      if existsb (String.eqb x) seen then unique seen r
      else x :: unique (x :: seen) r
  end.

(** [array.includes(x)] on strings. *)
Definition array_includes (l : list string) (x : string) : bool :=
  existsb (String.eqb x) l.

(** [voices.filter(v => v && v.language).map(v => v.language).filter(Boolean)]. *)
Definition voice_languages (voices : list (option Voice.t)) : list string :=
  let kept :=
    filter (fun v => match v with
                     | Some v' => match Voice.language v' with
                                  | Some l => truthy l
                                  | None => false
                                  end
                     | None => false
                     end) voices in
  let mapped :=
    map (fun v => match v with
                  | Some v' => match Voice.language v' with Some l => l | None => "" end
                  | None => ""
                  end) kept in
  filter truthy mapped.

(** [getAvailableLanguages]: the value returned and the state left.  A
    voices value that is not an array makes [voices.filter] raise, which
    the outer [catch] turns into the fallback. *)
Definition getAvailableLanguages (engine : Engine) (b : VoicesBehaviour) (st : State)
    : list string * State :=
  match engine with
  | MockTts =>
      let mockLanguages := ["vi-VN"; "en-US"] in
      (mockLanguages, setAvailableLanguages (fun _ => mockLanguages) st)
  | NativeTts =>
      let st1 := tts CallVoices st in
      match snd (detectVoices b) with
      | VoiceArray voices =>
          let languages := voice_languages voices in
          let uniqueLanguages := unique [] languages in
          let uniqueLanguages :=
            if negb (array_includes uniqueLanguages "vi-VN")
            then uniqueLanguages ++ ["vi-VN"] else uniqueLanguages in
          (uniqueLanguages, setAvailableLanguages (fun _ => uniqueLanguages) st1)
      | _ =>
          let fallback := ["vi-VN"; "en-US"] in
          (fallback, setAvailableLanguages (fun _ => fallback) st1)
      end
  end.

(** ** Speaking

    [speak] is an [async] function: it runs to its first [await], and
    resumes when the awaited promise settles; other calls and callbacks
    run in between.  A suspended call and a running timer are tasks. *)

Inductive Task :=
| AwaitStop (message : string)   (* suspended at [await ActiveTts.stop()] *)
| AwaitSpeak                     (* suspended at [await safeSpeak(textToSpeak)] *)
| SettleTimer.                   (* the 1000 ms timer that clears the flag *)

(** The store, the pending tasks, and the utterances the engine has
    announced with tts-start and not yet ended. *)
Record Async := mkAsync {
  store : State;
  tasks : list Task;
  uttering : nat
}.

(** From the translation to the dispatch (lines 615-639). *)
Definition speak_dispatch (message : string) (st : State) : State * list Task :=
  let textToSpeak := translate (vietnamesePhrases st) message in
  let st1 := setIsSpeaking true st in
  (tts (CallSpeak textToSpeak) st1, [AwaitSpeak]).

(** The entry of [speak], called from a render whose cells were [snap]. *)
Definition speak_enter (snap : State) (message : string) (st : State) : State * list Task :=
  match connectedDevice snap with
  | None => (alert NoDeviceConnected st, [])
  | Some _ =>
      if isSpeaking snap then (tts CallStop st, [AwaitStop message])
      else speak_dispatch message st
  end.

(** After [await safeSpeak]: the timer on success, the [catch] on failure. *)
Definition speak_settle (ok : bool) (st : State) : State * list Task :=
  if ok then (st, [SettleTimer])
  else (alert TtsError (setIsSpeaking false st), []).

Inductive Event :=
| EvSpeak (snap : State) (message : string)  (* a call of [speak] *)
| EvStopSettled (i : nat)                    (* task [i], an [AwaitStop], resumes *)
| EvSpeakSettled (i : nat) (ok : bool)       (* task [i], an [AwaitSpeak], resumes *)
| EvTimer (i : nat)                          (* task [i], a timer, fires *)
| EvTtsStart
| EvTtsFinish
| EvTtsCancel
| EvTtsError.

(** The list without its [i]-th element. *)
Fixpoint remove_nth {A : Type} (i : nat) (l : list A) : list A :=
  match l, i with
  | [], _ => []
  | _ :: r, O => r
  | x :: r, S i' => x :: remove_nth i' r
  end.

(** One event.  The listeners of the tts-* events are registered by
    [initTts] on the native engine only. *)
Definition step (engine : Engine) (e : Event) (a : Async) : option Async :=
  match e with
  | EvSpeak snap message =>
      let (st, ts) := speak_enter snap message (store a) in
      Some (mkAsync st (tasks a ++ ts) (uttering a))
  | EvStopSettled i =>
      match nth_error (tasks a) i with
      | Some (AwaitStop message) =>
          let (st, ts) := speak_dispatch message (store a) in
          Some (mkAsync st (remove_nth i (tasks a) ++ ts) (uttering a))
      | _ => None
      end
  | EvSpeakSettled i ok =>
      match nth_error (tasks a) i with
      | Some AwaitSpeak =>
          let (st, ts) := speak_settle ok (store a) in
          Some (mkAsync st (remove_nth i (tasks a) ++ ts) (uttering a))
      | _ => None
      end
  | EvTimer i =>
      match nth_error (tasks a) i with
      | Some SettleTimer =>
          Some (mkAsync (setIsSpeaking false (store a)) (remove_nth i (tasks a)) (uttering a))
      | _ => None
      end
  | EvTtsStart =>
      match engine with
      | NativeTts => Some (mkAsync (setIsSpeaking true (store a)) (tasks a) (S (uttering a)))
      | MockTts => None
      end
  | EvTtsFinish | EvTtsCancel | EvTtsError =>
      match engine with
      | NativeTts => Some (mkAsync (setIsSpeaking false (store a)) (tasks a) (pred (uttering a)))
      | MockTts => None
      end
  end.

(** Nothing is pending: no suspended call, no timer, no utterance. *)
Definition settled (a : Async) : bool :=
  match tasks a with [] => (uttering a =? 0)%nat | _ => false end.

(** The hook at rest in state [st]. *)
Definition at_rest (st : State) : Async := mkAsync st [] 0.

(** [speak(message)] called from the current render. *)
Definition speak (message : string) (a : Async) : Async :=
  let (st, ts) := speak_enter (store a) message (store a) in
  mkAsync st (tasks a ++ ts) (uttering a).

(** ** Initialisation *)

(** [initTts]: every engine call is guarded and its failure swallowed, so
    the calls are the same whatever the engine answers; the voices found
    are only counted for the console.  The listeners are registered on the
    native engine only. *)
Definition initTts (engine : Engine) (b : VoicesBehaviour) (st : State) : State :=
  let st1 := tts CallGetInitStatus st in
  let st2 :=
    match engine with
    | NativeTts =>
        tts (CallAddEventListener "tts-error")
          (tts (CallAddEventListener "tts-cancel")
             (tts (CallAddEventListener "tts-finish")
                (tts (CallAddEventListener "tts-start") st1)))
    | MockTts => st1
    end in
  let st3 := tts CallVoices st2 in
  let st4 := tts (CallSetDefaultLanguage "vi-VN") st3 in
  let st5 := tts (CallSetDefaultRate (1 # 2)) st4 in
  let st6 := tts (CallSetDefaultPitch 1) st5 in
  setAvailableLanguages
    (fun prev => if array_includes prev "vi-VN" then prev else prev ++ ["vi-VN"])
    st6.

(** ** Runs of the hook *)

(** What can happen to the hook: the mount effect, a call of one of the
    functions it returns (made from the current render), the user's OK on
    a connection dialog, and the events of speaking. *)
Inductive Op :=
| OpMount (b : VoicesBehaviour)
| OpScan (r : Rng)
| OpConnect (device : BluetoothDevice)
| OpOK (device : BluetoothDevice)
| OpDisconnect
| OpCheck
| OpForceConnect (deviceNameOrAddress : string) (r : Rng)
| OpAddPhrase (english vietnamese : string)
| OpLanguages (b : VoicesBehaviour)
| OpSpeech (e : Event).

(** An operation on the store alone. *)
Definition on_store (f : State -> State) (a : Async) : Async :=
  mkAsync (f (store a)) (tasks a) (uttering a).

Definition apply_op (engine : Engine) (o : Op) (a : Async) : Async :=
  match o with
  | OpMount b => on_store (fun st => initTts engine b (setDevices (fun _ => MOCK_DEVICES) st)) a
  | OpScan r => on_store (fun st => fst (scanForDevices r st)) a
  | OpConnect d => on_store (fun st => snd (connectToDevice d st)) a
  | OpOK d => on_store (pressOK d) a
  | OpDisconnect => on_store disconnectDevice a
  | OpCheck => on_store checkSystemConnection a
  | OpForceConnect q r => on_store (fun st => snd (fst (forceConnectToDevice q r st))) a
  | OpAddPhrase e v => on_store (setCustomVietnamesePhrase e v) a
  | OpLanguages b => on_store (fun st => snd (getAvailableLanguages engine b st)) a
  | OpSpeech e =>
      match step engine e a with
      | Some a' => a'
      | None => a      (* the event cannot happen here *)
      end
  end.

(** The hook after the operations [ops], from its first render. *)
Definition reach (engine : Engine) (ops : list Op) : Async :=
  fold_left (fun a o => apply_op engine o a) ops (at_rest initial_state).

(** ** Sample inputs *)

(** The tape that always draws 3/4. *)
Definition three_quarters : Rng := mkRng (fun _ => 3 # 4) 0.

(** A tape whose draws vary: the scan appends three devices, and the
    generated identifiers differ. *)
Definition varied : Rng :=
  mkRng (fun n => if ((n =? 0) || (n =? 97))%nat then 3 # 4
                  else Z.of_nat ((n / 12 + n) mod 16) # 16) 0.

(** Two [speak] calls from one render, of which the engine accepts the
    first and fails the second, then the timer of the first. *)
Definition two_rapid_speaks : list Op :=
  let d := mkDevice (Some "WYS-2301BT") "00:22:33:44:55:66"
                    (Some "00:22:33:44:55:66") (Some false) in
  let before := [OpMount Hangs; OpConnect d; OpOK d] in
  let snap := store (reach NativeTts before) in
  before ++ [ OpSpeech (EvSpeak snap "hello");
              OpSpeech (EvSpeak snap "thank you");
              OpSpeech (EvSpeakSettled 0 true);
              OpSpeech (EvSpeakSettled 0 false);
              OpSpeech (EvTimer 0) ].

(** ** Invariants of the runs *)

(** The store never holds a flagged device without a connected device. *)
Definition flags_bounded (st : State) : Prop :=
  connectedDevice st = None -> unflagged (devices st) = true.

(** A raised speaking flag has a pending task or utterance behind it. *)
Definition flag_backed (a : Async) : Prop :=
  isSpeaking (store a) = true -> settled a = false.

(** ** The words of the specification, for comparison *)

(** A dictionary kept in insertion order: a new key goes to the end, a key
    that exists keeps its place. *)
Definition insertion_set (k v : string) (l : list (string * string)) : list (string * string) :=
  if JsObject.has_key k l then JsObject.overwrite k v l else l ++ [(k, v)].

(** The phrase additions that pass the guard of the hook. *)
Definition accepted (e : string * string) : bool :=
  truthy (fst e) && truthy (snd e).

(** The insertion-ordered dictionary after the additions [adds] to the
    built-in phrases. *)
Definition insertion_order (adds : list (string * string)) : list (string * string) :=
  fold_left
    (fun l e => if accepted e then insertion_set (toLowerCase (fst e)) (snd e) l else l)
    adds default_entries.

(** The value of the first entry of [es] whose key occurs in the
    lower-cased message, or the message. *)
Definition first_match (es : list (string * string)) (message : string) : string :=
  match find (fun e => includes (toLowerCase message) (fst e)) es with
  | Some e => snd e
  | None => message
  end.

(** White space that [trim] removes, within ASCII. *)
Definition is_space (c : ascii) : bool :=
  let n := nat_of_ascii c in ((9 <=? n)%nat && (n <=? 13)%nat) || (n =? 32)%nat.

(** Empty, or blank after trimming. *)
Fixpoint blank (s : string) : bool :=
  match s with
  | EmptyString => true
  | String c r => is_space c && blank r
  end.

(** A key that is not an array index. *)
Definition plain (k : string) : bool :=
  match JsObject.array_index k with
  | None => true
  | Some _ => false
  end.

(** An addition whose lower-cased key is not an array index. *)
Definition plain_key (e : string * string) : bool :=
  plain (toLowerCase (fst e)).

(** The entries with plain keys, in the order of the object. *)
Definition plain_entries (o : JsObject.t) : list (string * string) :=
  filter (fun e => plain (fst e)) o.

(** The list [l] may follow a property of array index [n]. *)
Definition may_follow (n : N) (l : JsObject.t) : bool :=
  match l with
  | [] => true
  | (k, _) :: _ =>
      match JsObject.array_index k with
      | Some m => (n <=? m)%N
      | None => true
      end
  end.

(** The array-index keys come first, in ascending order; the plain keys
    follow. *)
Fixpoint canonical (o : JsObject.t) : bool :=
  match o with
  | [] => true
  | (k, _) :: r =>
      match JsObject.array_index k with
      | Some n => may_follow n r && canonical r
      | None => forallb (fun e => plain (fst e)) r
      end
  end.

(** ** Shapes of generated values *)

(** One of the sixteen characters of [hexChars]. *)
Definition is_hex (c : ascii) : bool :=
  existsb (Ascii.eqb c) (list_ascii_of_string hexChars).

(** [n] sections of two hexadecimal digits, with a colon between two
    sections and none at either end. *)
Fixpoint address_sections (n : nat) (s : string) : bool :=
  match n, s with
  | S n', String a (String b rest) =>
      is_hex a && is_hex b
      && match n', rest with
         | O, EmptyString => true
         | S _, String c rest' => Ascii.eqb c ":" && address_sections n' rest'
         | _, _ => false
         end
  | _, _ => false
  end.

(** The names of the candidates a scan can append, in their order. *)
Definition appendable_names : list string :=
  ["JBL Flip"; "Bose SoundLink"; "Sony SRS-XB12"].

(** The device carries the given name. *)
Definition named (n : string) (d : BluetoothDevice) : bool :=
  match name d with
  | Some n' => String.eqb n' n
  | None => false
  end.

(** Every device of the list reports [connected: false]. *)
Definition all_disconnected (l : list BluetoothDevice) : bool :=
  forallb (fun d => match connected d with Some false => true | _ => false end) l.

(** ** Well-formed dictionary keys *)

(** A key as [setCustomVietnamesePhrase] stores it: not empty, and equal
    to its own lower-casing. *)
Definition key_ok (k : string) : bool :=
  truthy k && String.eqb (toLowerCase k) k.

Definition keys_ok (o : JsObject.t) : bool :=
  forallb (fun e => key_ok (fst e)) o.

(** ** Counting engine calls *)

Definition is_speak_call (c : TtsCall) : bool :=
  match c with CallSpeak _ => true | _ => false end.

Definition is_stop_call (c : TtsCall) : bool :=
  match c with CallStop => true | _ => false end.

Definition is_stop_wait (t : Task) : bool :=
  match t with AwaitStop _ => true | _ => false end.

(** A [speak] call that passes the device guard. *)
Definition accepted_speak (o : Op) : bool :=
  match o with
  | OpSpeech (EvSpeak snap _) =>
      match connectedDevice snap with Some _ => true | None => false end
  | _ => false
  end.

(** A [speak] call that passes the guard from a render showing speech in
    progress. *)
Definition interrupting_speak (o : Op) : bool :=
  match o with
  | OpSpeech (EvSpeak snap _) =>
      match connectedDevice snap with Some _ => isSpeaking snap | None => false end
  | _ => false
  end.

Definition count {A : Type} (p : A -> bool) (l : list A) : nat :=
  List.length (filter p l).

(** ** Text utilities of the screen and of the notification hook *)

(** ECMAScript white space at the head of a UTF-8 string: the rest after
    it.  These are the code points [trim] strips and [\s] matches: U+0009
    to U+000D, U+0020, U+00A0, U+1680, U+2000 to U+200A, U+2028, U+2029,
    U+202F, U+205F, U+3000 and U+FEFF. *)
Definition skip_white (s : string) : option string :=
  match s with
  | EmptyString => None
  | String c r =>
      let n := nat_of_ascii c in
      if ((9 <=? n)%nat && (n <=? 13)%nat) || (n =? 32)%nat then Some r
      else
        match r with
        | String c2 r2 =>
            let n2 := nat_of_ascii c2 in
            if (n =? 194)%nat && (n2 =? 160)%nat then Some r2
            else
              match r2 with
              | String c3 r3 =>
                  let n3 := nat_of_ascii c3 in
                  if ((n =? 225)%nat && (n2 =? 154)%nat && (n3 =? 128)%nat)
                     || ((n =? 226)%nat && (n2 =? 128)%nat
                         && (((128 <=? n3)%nat && (n3 <=? 138)%nat)
                             || (n3 =? 168)%nat || (n3 =? 169)%nat || (n3 =? 175)%nat))
                     || ((n =? 226)%nat && (n2 =? 129)%nat && (n3 =? 159)%nat)
                     || ((n =? 227)%nat && (n2 =? 128)%nat && (n3 =? 128)%nat)
                     || ((n =? 239)%nat && (n2 =? 187)%nat && (n3 =? 191)%nat)
                  then Some r3 else None
              | EmptyString => None
              end
        | EmptyString => None
        end
  end.

(** The string consists of white space only; [n] bounds the number of
    white-space characters read. *)
Fixpoint all_white (n : nat) (s : string) : bool :=
  match s with
  | EmptyString => true
  | String _ _ =>
      match n with
      | O => false
      | S n' =>
          match skip_white s with
          | Some r => all_white n' r
          | None => false
          end
      end
  end.

(** [!s.trim()]: trimming leaves the empty string. *)
Definition trims_to_empty (s : string) : bool :=
  all_white (String.length s) s.

(** [pat] at the head of [s], ASCII letters compared without case (the
    [i] flag): the rest of [s] after it. *)
Fixpoint prefix_ci (pat s : string) : option string :=
  match pat with
  | EmptyString => Some s
  | String p pat' =>
      match s with
      | EmptyString => None
      | String c s' =>
          if Ascii.eqb (lower_ascii c) (lower_ascii p) then prefix_ci pat' s' else None
      end
  end.

(** [[^\s]+], greedy: the longest head of [s] without white space. *)
Fixpoint take_non_white (s : string) : string :=
  match s with
  | EmptyString => EmptyString
  | String c r =>
      match skip_white s with
      | Some _ => EmptyString
      | None => String c (take_non_white r)
      end
  end.

(** [/from ([^\s]+)/i] tried at the head of [s]: the captured group. *)
Definition sender_at (s : string) : option string :=
  match prefix_ci "from " s with
  | Some rest =>
      let w := take_non_white rest in
      if truthy w then Some w else None
  | None => None
  end.

(** The leftmost match of that expression in [s]. *)
Fixpoint match_sender (s : string) : option string :=
  match sender_at s with
  | Some w => Some w
  | None =>
      match s with
      | EmptyString => None
      | String _ r => match_sender r
      end
  end.

(** [extractSender]. *)
Definition extractSender (text : string) : string :=
  match match_sender text with
  | Some w => w
  | None => "unknown sender"
  end.

(** [\d]. *)
Definition is_digit (c : ascii) : bool :=
  let n := nat_of_ascii c in (48 <=? n)%nat && (n <=? 57)%nat.

(** [\d{n}] at the head of [s]: the digits and the rest. *)
Fixpoint digits_exact (n : nat) (s : string) : option (string * string) :=
  match n with
  | O => Some (EmptyString, s)
  | S n' =>
      match s with
      | String c r =>
          if is_digit c then
            match digits_exact n' r with
            | Some (d, rest) => Some (String c d, rest)
            | None => None
            end
          else None
      | EmptyString => None
      end
  end.

(** The ways a piece of the expression can match at the head of a
    string, each with what it consumed and what is left, in the order in
    which a backtracking matcher tries them. *)
Definition Alternatives := list (string * string).

(** [\d{1,3}], greedy: three digits, then two, then one. *)
Definition alts_digits (s : string) : Alternatives :=
  flat_map (fun n => match digits_exact n s with Some a => [a] | None => [] end)
           [3; 2; 1]%nat.

(** [(,\d{3})*], greedy: one more group first, then none; [n] bounds the
    number of groups. *)
Fixpoint alts_groups (n : nat) (s : string) : Alternatives :=
  match n with
  | O => [(EmptyString, s)]
  | S n' =>
      match s with
      | String c r =>
          if Ascii.eqb c "," then
            match digits_exact 3 r with
            | Some (d, rest) =>
                map (fun a => (String c (d ++ fst a)%string, snd a)) (alts_groups n' rest)
                ++ [(EmptyString, s)]
            | None => [(EmptyString, s)]
            end
          else [(EmptyString, s)]
      | EmptyString => [(EmptyString, s)]
      end
  end.

(** The number of digits at the head of [s]. *)
Fixpoint digit_run (s : string) : nat :=
  match s with
  | String c r => if is_digit c then S (digit_run r) else O
  | EmptyString => O
  end.

(** [k], [k - 1], ..., [1]. *)
Fixpoint countdown (k : nat) : list nat :=
  match k with
  | O => []
  | S k' => k :: countdown k'
  end.

(** [(\.\d+)?], greedy: the point with as many digits as there are, then
    with fewer, then nothing. *)
Definition alts_fraction (s : string) : Alternatives :=
  match s with
  | String c r =>
      if Ascii.eqb c "." then
        flat_map (fun n => match digits_exact n r with
                           | Some (d, rest) => [(String c d, rest)]
                           | None => []
                           end) (countdown (digit_run r))
        ++ [(EmptyString, s)]
      else [(EmptyString, s)]
  | EmptyString => [(EmptyString, s)]
  end.

(** [ ?VND] with the [i] flag, at the head of [s]. *)
Definition currency_follows (s : string) : bool :=
  let vnd r := match prefix_ci "VND" r with Some _ => true | None => false end in
  match s with
  | String c r => (Ascii.eqb c " " && vnd r) || vnd s
  | EmptyString => false
  end.

(** [/(\d{1,3}(,\d{3})*(\.\d+)?) ?VND/i] tried at the head of [s]: the
    first group of the first alternative that lets the rest match. *)
Definition amount_at (s : string) : option string :=
  let candidates :=
    flat_map (fun a1 =>
      flat_map (fun a2 =>
        map (fun a3 => ((fst a1 ++ fst a2 ++ fst a3)%string, snd a3))
            (alts_fraction (snd a2)))
        (alts_groups (String.length (snd a1)) (snd a1)))
      (alts_digits s) in
  option_map fst (find (fun a => currency_follows (snd a)) candidates).

(** The leftmost match of that expression in [s]. *)
Fixpoint match_amount (s : string) : option string :=
  match amount_at s with
  | Some a => Some a
  | None =>
      match s with
      | EmptyString => None
      | String _ r => match_amount r
      end
  end.

(** [extractAmount]. *)
Definition extractAmount (text : string) : string :=
  match match_amount text with
  | Some a => a
  | None => "unknown amount"
  end.

(** ** A whole [speak] call *)

(** [speak(message)] from a render whose cells were [snap], run until the
    promise it returns resolves, when nothing else happens in between:
    the pending [stop] settles, the engine's [speak] settles with [ok].
    The 1000 ms timer is left pending. *)
Definition speak_through (snap : State) (ok : bool) (message : string) (a : Async) : Async :=
  let (st1, ts1) := speak_enter snap message (store a) in
  match ts1 with
  | [] => mkAsync st1 (tasks a) (uttering a)
  | AwaitStop m :: _ =>
      let (st2, _) := speak_dispatch m st1 in
      let (st3, ts3) := speak_settle ok st2 in
      mkAsync st3 (tasks a ++ ts3) (uttering a)
  | _ :: _ =>
      let (st3, ts3) := speak_settle ok st1 in
      mkAsync st3 (tasks a ++ ts3) (uttering a)
  end.

(** ** The notification hook (NotificationService.tsx) *)

Inductive OS := Android | IOS | OtherOS.

(** [Platform.OS] and [Number(Platform.Version)]. *)
Record Platform := mkPlatform { os : OS; version : Z }.

(** What [PermissionsAndroid.request] answers. *)
Inductive PermissionResult := Granted | Denied | NeverAskAgain | RequestThrows.

(** The dialogs of the notification hook, by their titles. *)
Inductive PermissionDialog :=
| NotificationPermissionRequired
| SimulationModeActive
| NotificationAccessRequired
| IOSLimitation.

Inductive AppStateStatus := Active | Background | Inactive | UnknownState | Extension.

(** A notification as [processNotification] reads it. *)
Record Notification := mkNotification {
  packageName : option string;
  title : option string;
  text : option string
}.

(** The cells of [useNotificationService], the instance of
    [useBluetoothService] it creates for itself, the simulations waiting
    for their 1500 ms timer (each with the cells of the render that
    scheduled it), and the calls of [onPaymentReceived]. *)
Record NotificationHook := mkNotificationHook {
  hasPermission : bool;
  demoMode : bool;
  appState : AppStateStatus;
  bluetooth : Async;
  scheduled : list State;
  permissionDialogs : list PermissionDialog;
  payments : list (string * string)
}.

(** [isSimulationMode] is read from what [useBluetoothService] returns,
    which has no such field: it is [undefined]. *)
Definition isSimulationMode : bool := false.

Definition notification_start (current : AppStateStatus) : NotificationHook :=
  mkNotificationHook false true current (at_rest initial_state) [] [] [].

Definition grant (demo : bool) (h : NotificationHook) : NotificationHook :=
  mkNotificationHook true demo (appState h) (bluetooth h) (scheduled h)
                     (permissionDialogs h) (payments h).

Definition setHasPermission (b : bool) (h : NotificationHook) : NotificationHook :=
  mkNotificationHook b (demoMode h) (appState h) (bluetooth h) (scheduled h)
                     (permissionDialogs h) (payments h).

Definition permission_dialog (d : PermissionDialog) (h : NotificationHook) : NotificationHook :=
  mkNotificationHook (hasPermission h) (demoMode h) (appState h) (bluetooth h)
                     (scheduled h) (permissionDialogs h ++ [d]) (payments h).

(** [requestPermissions]. *)
Definition requestPermissions (p : Platform) (res : PermissionResult) (h : NotificationHook)
    : bool * NotificationHook :=
  match os p with
  | Android =>
      let proceed :=
        if isSimulationMode then
          (true, permission_dialog SimulationModeActive (grant true h))
        else
          (true, setHasPermission true (permission_dialog NotificationAccessRequired h)) in
      if (33 <=? version p)%Z then
        match res with
        | Granted => proceed
        | RequestThrows => (true, grant true h)
        | Denied | NeverAskAgain =>
            (false, permission_dialog NotificationPermissionRequired h)
        end
      else proceed
  | IOS | OtherOS =>
      (true, grant true (permission_dialog IOSLimitation h))
  end.

(** The button Use Demo Mode of the Notification Access Required dialog. *)
Definition pressUseDemoMode (h : NotificationHook) : NotificationHook := grant true h.

(** Its button Open Settings; [throws] tells whether [Linking.openSettings]
    raises. *)
Definition pressOpenSettings (throws : bool) (h : NotificationHook) : NotificationHook :=
  if throws then grant true h else grant false h.

Definition amounts : list string := ["50,000"; "100,000"; "25,000"; "200,000"; "75,000"].

Definition senders : list string :=
  ["Demo User"; "Test Account"; "John Doe"; "Jane Smith"; "MoMo Test"].

(** [list[Math.floor(Math.random() * list.length)]] in a template: an
    index out of range gives [undefined]. *)
Definition pick (l : list string) (r : Rng) : string * Rng :=
  let (x, r1) := Math_random r in
  let i := Qfloor (x * inject_Z (Z.of_nat (List.length l))) in
  (if (i <? 0)%Z then "undefined"
   else match nth_error l (Z.to_nat i) with
        | Some s => s
        | None => "undefined"
        end, r1).

(** The template of the announcement. *)
Definition announcement (amount sender : string) : string :=
  ("You have received " ++ amount ++ " VND from " ++ sender)%string.

(** [speak(message).then(...).catch(...)]: [speak] never rejects, and
    [onPaymentReceived] is called once it resolves. *)
Definition announce (snap : State) (ok : bool) (amount sender : string)
    (h : NotificationHook) : NotificationHook :=
  mkNotificationHook (hasPermission h) (demoMode h) (appState h)
                     (speak_through snap ok (announcement amount sender) (bluetooth h))
                     (scheduled h) (permissionDialogs h)
                     (payments h ++ [(amount, sender)]).

(** [simulatePaymentNotification], as created by the render whose
    Bluetooth cells were [snap]. *)
Definition simulatePaymentNotification (snap : State) (r : Rng) (ok : bool)
    (h : NotificationHook) : NotificationHook * Rng :=
  let (amount, r1) := pick amounts r in
  let (sender, r2) := pick senders r1 in
  (announce snap ok amount sender h, r2).

(** [o?.includes(pat)] under [||]: a missing string counts as false. *)
Definition opt_includes (o : option string) (pat : string) : bool :=
  match o with Some s => includes s pat | None => false end.

Definition isMoMoNotification (n : option Notification) : bool :=
  match n with
  | None => false
  | Some n =>
      match packageName n with
      | Some p => String.eqb p "com.mservice.momotransfer"
      | None => false
      end
      || opt_includes (title n) "MoMo"
      || opt_includes (text n) "MoMo"
  end.

Definition isPaymentNotification (n : option Notification) : bool :=
  match n with
  | None => false
  | Some n =>
      let lower := option_map toLowerCase (text n) in
      opt_includes lower "received"
      || opt_includes lower "transfer"
      || opt_includes lower "payment"
  end.

(** [processNotification].  When both tests pass the text is present. *)
Definition processNotification (snap : State) (n : option Notification) (ok : bool)
    (h : NotificationHook) : NotificationHook :=
  if isMoMoNotification n && isPaymentNotification n then
    match n with
    | Some n' =>
        match text n' with
        | Some t => announce snap ok (extractAmount t) (extractSender t) h
        | None => h
        end
    | None => h
    end
  else h.

(** [appState.match(/inactive|background/)]. *)
Definition was_away (s : AppStateStatus) : bool :=
  match s with Background | Inactive => true | _ => false end.

(** [handleAppStateChange]: coming back to the foreground in demo mode
    schedules a simulation when the draw exceeds 0.7. *)
Definition handleAppStateChange (next : AppStateStatus) (r : Rng) (h : NotificationHook)
    : NotificationHook * Rng :=
  let back := was_away (appState h) && match next with Active => true | _ => false end in
  let '(sched, r1) :=
    if back && hasPermission h && demoMode h then
      let (x, r') := Math_random r in
      (if negb (Qle_bool x (7 # 10)) then scheduled h ++ [store (bluetooth h)]
       else scheduled h, r')
    else (scheduled h, r) in
  (mkNotificationHook (hasPermission h) (demoMode h) next (bluetooth h) sched
                      (permissionDialogs h) (payments h), r1).

(** What can happen to the notification hook. *)
Inductive NOp :=
| NMount (b : VoicesBehaviour)
| NRequest (p : Platform) (res : PermissionResult)
| NUseDemoMode
| NOpenSettings (throws : bool)
| NSimulate (r : Rng) (ok : bool)
| NProcess (n : option Notification) (ok : bool)
| NAppState (next : AppStateStatus) (r : Rng)
| NTimer (i : nat) (r : Rng) (ok : bool)
| NSpeech (e : Event).

Definition on_bluetooth (f : Async -> Async) (h : NotificationHook) : NotificationHook :=
  mkNotificationHook (hasPermission h) (demoMode h) (appState h) (f (bluetooth h))
                     (scheduled h) (permissionDialogs h) (payments h).

(** The hook exposes [speak] to its two callers only; the other events of
    speaking reach its Bluetooth instance as they come. *)
Definition apply_nop (engine : Engine) (o : NOp) (h : NotificationHook) : NotificationHook :=
  match o with
  | NMount b => on_bluetooth (apply_op engine (OpMount b)) h
  | NRequest p res => snd (requestPermissions p res h)
  | NUseDemoMode => pressUseDemoMode h
  | NOpenSettings throws => pressOpenSettings throws h
  | NSimulate r ok => fst (simulatePaymentNotification (store (bluetooth h)) r ok h)
  | NProcess n ok => processNotification (store (bluetooth h)) n ok h
  | NAppState next r => fst (handleAppStateChange next r h)
  | NTimer i r ok =>
      match nth_error (scheduled h) i with
      | Some snap =>
          let h' := mkNotificationHook (hasPermission h) (demoMode h) (appState h)
                      (bluetooth h) (remove_nth i (scheduled h))
                      (permissionDialogs h) (payments h) in
          fst (simulatePaymentNotification snap r ok h')
      | None => h
      end
  | NSpeech e =>
      match e with
      | EvSpeak _ _ => h
      | _ => on_bluetooth (apply_op engine (OpSpeech e)) h
      end
  end.

Definition notification_reach (engine : Engine) (current : AppStateStatus) (ops : list NOp)
    : NotificationHook :=
  fold_left (fun h o => apply_nop engine o h) ops (notification_start current).

(** ** The screen (index.tsx) *)

(** The dialogs the screen raises itself, by their titles. *)
Inductive ScreenDialog :=
| EmptyMessage
| MissingInformation.

(** The cells of [PaymentListenerScreen] and its Bluetooth hook. *)
Record Screen := mkScreen {
  hook : Async;
  message : string;
  isConnecting : bool;
  englishPhrase : string;
  vietnamesePhrase : string;
  languages : list string;
  screenDialogs : list ScreenDialog
}.

Definition screen_dialog (d : ScreenDialog) (s : Screen) : Screen :=
  mkScreen (hook s) (message s) (isConnecting s) (englishPhrase s)
           (vietnamesePhrase s) (languages s) (screenDialogs s ++ [d]).

(** [getDeviceId]: [device.id || device.address || "unknown"]. *)
Definition getDeviceId (device : BluetoothDevice) : string :=
  if truthy (id device) then id device
  else match address device with
       | Some a => if truthy a then a else "unknown"
       | None => "unknown"
       end.

(** The list item shows the Connected badge. *)
Definition shows_connected (st : State) (item : BluetoothDevice) : bool :=
  match connectedDevice st with
  | Some d => String.eqb (getDeviceId d) (getDeviceId item)
  | None => false
  end.

(** [handleAddPhrase]. *)
Definition handleAddPhrase (s : Screen) : Screen :=
  if trims_to_empty (englishPhrase s) || trims_to_empty (vietnamesePhrase s) then
    screen_dialog MissingInformation s
  else
    let hook' :=
      on_store (setCustomVietnamesePhrase (englishPhrase s) (vietnamesePhrase s)) (hook s) in
    mkScreen hook' (message s) (isConnecting s) "" "" (languages s) (screenDialogs s).

(** [handleSpeak]; [ok] tells whether the engine's [speak] succeeds. *)
Definition handleSpeak (ok : bool) (s : Screen) : Screen :=
  if trims_to_empty (message s) then screen_dialog EmptyMessage s
  else
    mkScreen (speak_through (store (hook s)) ok (message s) (hook s))
             (message s) (isConnecting s) (englishPhrase s) (vietnamesePhrase s)
             (languages s) (screenDialogs s).

(** ** Invariant of the notification hook *)

Definition is_no_device_alert (a : AlertBox) : bool :=
  match a with NoDeviceConnected => true | _ => false end.

(** The Bluetooth instance of the notification hook has no connected
    device, in the store or in a scheduled render; nothing is pending in
    it; its engine was never asked to speak or to stop; it has raised one
    No Device Connected dialog for each payment reported. *)
Definition silent (h : NotificationHook) : Prop :=
  connectedDevice (store (bluetooth h)) = None
  /\ Forall (fun snap => connectedDevice snap = None) (scheduled h)
  /\ tasks (bluetooth h) = []
  /\ count is_speak_call (ttsCalls (store (bluetooth h))) = 0%nat
  /\ count is_stop_call (ttsCalls (store (bluetooth h))) = 0%nat
  /\ count is_no_device_alert (alerts (store (bluetooth h))) = List.length (payments h).

Definition is_input_error (a : AlertBox) : bool :=
  match a with InputError => true | _ => false end.

(** ** Well-formed amounts and senders, for the round trips *)

Fixpoint all_chars (p : ascii -> bool) (s : string) : bool :=
  match s with
  | EmptyString => true
  | String c r => p c && all_chars p r
  end.

(** Neither [f] nor [F]. *)
Definition not_f (c : ascii) : bool := negb (Ascii.eqb (lower_ascii c) "f").

(** Groups of three digits, each after a comma. *)
Fixpoint grouped (groups : list string) : string :=
  match groups with
  | [] => EmptyString
  | g :: r => String "," (g ++ grouped r)
  end.

(** One to three digits. *)
Definition leading_ok (head : string) : bool :=
  all_chars is_digit head
  && (1 <=? String.length head)%nat && (String.length head <=? 3)%nat.

(** Three digits. *)
Definition group_ok (g : string) : bool :=
  all_chars is_digit g && (String.length g =? 3)%nat.

End Hook.

(** ** Lemmas on dictionaries *)

Module JsObjectFacts.
Import JsObject.

Lemma has_key_get (k : string) (o : t) :
  has_key k o = true <-> get k o <> None.
Proof.
  induction o as [|[k' v'] r IH]; simpl.
  - split; [discriminate | intros H; now elim H].
  - destruct (String.eqb k' k); simpl.
    + split; [discriminate | reflexivity].
    + exact IH.
Qed.

Lemma get_overwrite_same (k v : string) (o : t) :
  has_key k o = true -> get k (overwrite k v o) = Some v.
Proof.
  induction o as [|[k' v'] r IH]; simpl; [discriminate|].
  destruct (String.eqb k' k) eqn:E; simpl.
  - now rewrite E.
  - rewrite E. exact IH.
Qed.

Lemma get_overwrite_other (k k' v : string) (o : t) :
  k' <> k -> get k' (overwrite k v o) = get k' o.
Proof.
  intros Hne.
  induction o as [|[k0 v0] r IH]; simpl; [reflexivity|].
  destruct (String.eqb k0 k) eqn:E; simpl.
  - apply String.eqb_eq in E. subst k0.
    destruct (String.eqb k k') eqn:E'; [|reflexivity].
    apply String.eqb_eq in E'. congruence.
  - now rewrite IH.
Qed.

Lemma get_app_same (k v : string) (o : t) :
  has_key k o = false -> get k (o ++ [(k, v)]) = Some v.
Proof.
  induction o as [|[k' v'] r IH]; simpl.
  - now rewrite String.eqb_refl.
  - destruct (String.eqb k' k); simpl; [discriminate | exact IH].
Qed.

Lemma get_app_other (k k' v : string) (o : t) :
  k' <> k -> get k' (o ++ [(k, v)]) = get k' o.
Proof.
  intros Hne.
  induction o as [|[k0 v0] r IH]; simpl.
  - destruct (String.eqb k k') eqn:E; [|reflexivity].
    apply String.eqb_eq in E. congruence.
  - now rewrite IH.
Qed.

Lemma get_insert_index_same (n : N) (k v : string) (o : t) :
  has_key k o = false -> get k (insert_index n k v o) = Some v.
Proof.
  induction o as [|[k' v'] r IH]; simpl.
  - now rewrite String.eqb_refl.
  - destruct (String.eqb k' k) eqn:E; simpl; [discriminate|].
    intros H.
    destruct (array_index k') as [n'|]; [destruct (n <? n')%N|]; simpl;
      rewrite ?String.eqb_refl, ?E; auto.
Qed.

Lemma get_insert_index_other (n : N) (k k' v : string) (o : t) :
  k' <> k -> get k' (insert_index n k v o) = get k' o.
Proof.
  intros Hne.
  assert (Hkk : String.eqb k k' = false) by (apply String.eqb_neq; congruence).
  induction o as [|[k0 v0] r IH]; simpl.
  - now rewrite Hkk.
  - destruct (array_index k0) as [n'|]; [destruct (n <? n')%N|]; simpl;
      rewrite ?Hkk, ?IH; reflexivity.
Qed.

(** After [o[k] = v], [o[k]] is [v]. *)
Lemma get_set_same (k v : string) (o : t) :
  get k (set k v o) = Some v.
Proof.
  unfold set.
  destruct (has_key k o) eqn:E.
  - now apply get_overwrite_same.
  - destruct (array_index k).
    + now apply get_insert_index_same.
    + now apply get_app_same.
Qed.

(** Assignment to [k] leaves the other properties alone. *)
Lemma get_set_other (k k' v : string) (o : t) :
  k' <> k -> get k' (set k v o) = get k' o.
Proof.
  intros Hne. unfold set.
  destruct (has_key k o).
  - now apply get_overwrite_other.
  - destruct (array_index k).
    + now apply get_insert_index_other.
    + now apply get_app_other.
Qed.

(** A key that is no array index is set the insertion-order way. *)
Lemma set_not_index (k v : string) (o : t) :
  array_index k = None -> set k v o = insertion_set k v o.
Proof.
  intros H. unfold set, insertion_set. now rewrite H.
Qed.

(** *** The order of enumeration *)

Lemma may_follow_overwrite (n : N) (k v : string) (o : t) :
  may_follow n (overwrite k v o) = may_follow n o.
Proof.
  destruct o as [|[k' v'] r]; [reflexivity|].
  cbn [overwrite]. now destruct (String.eqb k' k).
Qed.

Lemma all_plain_overwrite (k v : string) (o : t) :
  forallb (fun e => plain (fst e)) (overwrite k v o)
  = forallb (fun e => plain (fst e)) o.
Proof.
  induction o as [|[k' v'] r IH]; [reflexivity|].
  cbn [overwrite]. destruct (String.eqb k' k); cbn [forallb fst]; [reflexivity|].
  now rewrite IH.
Qed.

Lemma canonical_overwrite (k v : string) (o : t) :
  canonical (overwrite k v o) = canonical o.
Proof.
  induction o as [|[k' v'] r IH]; [reflexivity|].
  cbn [overwrite]. destruct (String.eqb k' k); cbn [canonical]; [reflexivity|].
  destruct (array_index k').
  - now rewrite may_follow_overwrite, IH.
  - apply all_plain_overwrite.
Qed.

Lemma may_follow_insert_index (m n : N) (k v : string) (o : t) :
  array_index k = Some n -> (m <= n)%N ->
  may_follow m o = true -> may_follow m (insert_index n k v o) = true.
Proof.
  intros Hk Hmn. destruct o as [|[k' v'] r]; cbn [insert_index may_follow].
  - intros _. rewrite Hk. now apply N.leb_le.
  - destruct (array_index k') as [n'|] eqn:E.
    + destruct (n <? n')%N; cbn [may_follow]; rewrite ?Hk, ?E; auto.
      intros _. now apply N.leb_le.
    + intros _. cbn [may_follow]. rewrite Hk. now apply N.leb_le.
Qed.

Lemma canonical_insert_index (n : N) (k v : string) (o : t) :
  array_index k = Some n ->
  canonical o = true -> canonical (insert_index n k v o) = true.
Proof.
  intros Hk.
  induction o as [|[k' v'] r IH]; cbn [insert_index canonical].
  - intros _. now rewrite Hk.
  - destruct (array_index k') as [n'|] eqn:E.
    + intros H. apply andb_true_iff in H. destruct H as [H1 H2].
      destruct (N.ltb_spec n n') as [Hlt | Hge]; cbn [canonical]; rewrite ?Hk, ?E.
      * cbn [may_follow]. rewrite E, H1, H2.
        replace (n <=? n')%N with true by (symmetry; apply N.leb_le; lia).
        reflexivity.
      * rewrite (may_follow_insert_index n' n k v r Hk Hge H1).
        now rewrite IH.
    + intros H. cbn [canonical may_follow]. rewrite Hk, E.
      cbn [andb]. exact H.
Qed.

Lemma may_follow_app (n : N) (k v : string) (o : t) :
  plain k = true ->
  may_follow n o = true -> may_follow n (o ++ [(k, v)]) = true.
Proof.
  intros Hk. destruct o as [|[k' v'] r]; cbn [app may_follow]; [|auto].
  intros _. unfold plain in Hk. now destruct (array_index k).
Qed.

Lemma canonical_app_plain (k v : string) (o : t) :
  plain k = true ->
  canonical o = true -> canonical (o ++ [(k, v)]) = true.
Proof.
  intros Hk.
  induction o as [|[k' v'] r IH]; cbn [app canonical].
  - intros _. unfold plain in Hk. now destruct (array_index k).
  - destruct (array_index k') as [n'|].
    + intros H. apply andb_true_iff in H. destruct H as [H1 H2].
      now rewrite (may_follow_app n' k v r Hk H1), IH.
    + intros H. rewrite forallb_app, H. cbn [forallb fst]. now rewrite Hk.
Qed.

(** Assignment keeps the array-index keys first and ascending. *)
Lemma canonical_set (k v : string) (o : t) :
  canonical o = true -> canonical (set k v o) = true.
Proof.
  intros H. unfold set.
  destruct (has_key k o).
  - now rewrite canonical_overwrite.
  - destruct (array_index k) as [n|] eqn:E.
    + now apply canonical_insert_index.
    + apply canonical_app_plain; [|exact H].
      unfold plain. now rewrite E.
Qed.

Lemma plain_entries_overwrite (k v : string) (o : t) :
  plain_entries (overwrite k v o)
  = if plain k then overwrite k v (plain_entries o) else plain_entries o.
Proof.
  unfold plain_entries.
  induction o as [|[k' v'] r IH]; cbn [overwrite filter fst].
  - now destruct (plain k).
  - destruct (String.eqb k' k) eqn:E; cbn [filter fst].
    + apply String.eqb_eq in E. subst k'.
      destruct (plain k); cbn [overwrite]; [|reflexivity].
      now rewrite String.eqb_refl.
    + rewrite IH. destruct (plain k'), (plain k); cbn [overwrite]; rewrite ?E; reflexivity.
Qed.

Lemma plain_entries_insert_index (n : N) (k v : string) (o : t) :
  array_index k = Some n ->
  plain_entries (insert_index n k v o) = plain_entries o.
Proof.
  intros Hk. unfold plain_entries.
  assert (Hp : plain k = false) by (unfold plain; now rewrite Hk).
  induction o as [|[k' v'] r IH]; cbn [insert_index filter fst].
  - now rewrite Hp.
  - destruct (array_index k') as [n'|] eqn:E.
    + destruct (n <? n')%N; cbn [filter fst]; rewrite ?Hp, ?IH; reflexivity.
    + cbn [filter fst]. now rewrite Hp.
Qed.

Lemma has_key_plain_entries (k : string) (o : t) :
  plain k = true -> has_key k (plain_entries o) = has_key k o.
Proof.
  intros Hk. unfold has_key, plain_entries.
  induction o as [|[k' v'] r IH]; [reflexivity|].
  cbn [filter existsb fst].
  destruct (plain k') eqn:Hp; cbn [existsb fst]; rewrite IH; [reflexivity|].
  destruct (String.eqb k' k) eqn:E; [|reflexivity].
  apply String.eqb_eq in E. congruence.
Qed.

(** On the plain keys, assignment is insertion-ordered; an array-index
    key does not disturb them. *)
Lemma plain_entries_set (k v : string) (o : t) :
  plain_entries (set k v o)
  = if plain k then insertion_set k v (plain_entries o) else plain_entries o.
Proof.
  unfold set, insertion_set.
  destruct (plain k) eqn:Hp.
  - rewrite (has_key_plain_entries k o Hp).
    destruct (has_key k o).
    + now rewrite plain_entries_overwrite, Hp.
    + pose proof Hp as Hp'. unfold plain in Hp'.
      destruct (array_index k); [discriminate|].
      unfold plain_entries. rewrite filter_app. cbn [filter fst].
      now rewrite Hp.
  - destruct (has_key k o).
    + now rewrite plain_entries_overwrite, Hp.
    + unfold plain in Hp. destruct (array_index k) as [n|] eqn:E; [|discriminate].
      now apply plain_entries_insert_index.
Qed.

End JsObjectFacts.

Section Properties.

Context {L : LowerCasing}.

(** ** Translation *)

Lemma translate_loop_find (lowerMsg : string) (es : list (string * string)) (text : string) :
  translate_loop lowerMsg es text =
  match find (fun e => includes lowerMsg (fst e)) es with
  | Some e => snd e
  | None => text
  end.
Proof.
  induction es as [|[english vietnamese] rest IH]; simpl; [reflexivity|].
  destruct (includes lowerMsg english); [reflexivity | exact IH].
Qed.

Lemma default_phrases_entries :
  JsObject.entries DEFAULT_VIETNAMESE_PHRASES = default_entries.
Proof. vm_compute. reflexivity. Qed.

Lemma add_phrases_insertion_order (adds : list (string * string)) :
  forall st,
    forallb plain_key adds = true ->
    vietnamesePhrases (add_phrases adds st) =
    fold_left
      (fun l e => if accepted e then insertion_set (toLowerCase (fst e)) (snd e) l else l)
      adds (vietnamesePhrases st).
Proof.
  induction adds as [|[e v] r IH]; intros st H; simpl in *; [reflexivity|].
  apply andb_true_iff in H. destruct H as [Hk Hr].
  rewrite (IH _ Hr). f_equal.
  unfold setCustomVietnamesePhrase, accepted, plain_key in *. simpl in *.
  destruct (truthy e), (truthy v); simpl; try reflexivity.
  apply JsObjectFacts.set_not_index.
  unfold plain in Hk.
  destruct (JsObject.array_index (toLowerCase e)); [discriminate | reflexivity].
Qed.

Lemma setCustomVietnamesePhrase_phrases (e v : string) (st : State) :
  vietnamesePhrases (setCustomVietnamesePhrase e v st)
  = if accepted (e, v)
    then JsObject.set (toLowerCase e) v (vietnamesePhrases st)
    else vietnamesePhrases st.
Proof.
  unfold setCustomVietnamesePhrase, accepted. cbn [fst snd].
  destruct (truthy e), (truthy v); reflexivity.
Qed.

Lemma add_phrases_canonical (adds : list (string * string)) :
  forall st,
    canonical (vietnamesePhrases st) = true ->
    canonical (vietnamesePhrases (add_phrases adds st)) = true.
Proof.
  induction adds as [|[e v] r IH]; intros st H; [exact H|].
  apply IH. cbn [fst snd]. rewrite setCustomVietnamesePhrase_phrases.
  destruct (accepted (e, v)); [|exact H].
  now apply JsObjectFacts.canonical_set.
Qed.

Lemma add_phrases_plain_entries (adds : list (string * string)) :
  forall st,
    plain_entries (vietnamesePhrases (add_phrases adds st)) =
    fold_left
      (fun l e => if accepted e then insertion_set (toLowerCase (fst e)) (snd e) l else l)
      (filter plain_key adds) (plain_entries (vietnamesePhrases st)).
Proof.
  induction adds as [|[e v] r IH]; intros st; [reflexivity|].
  change (add_phrases ((e, v) :: r) st)
    with (add_phrases r (setCustomVietnamesePhrase e v st)).
  rewrite IH, setCustomVietnamesePhrase_phrases.
  cbn [filter]. unfold plain_key at 2. cbn [fst].
  destruct (accepted (e, v)) eqn:A.
  - rewrite JsObjectFacts.plain_entries_set.
    destruct (plain (toLowerCase e)); [|reflexivity].
    cbn [fold_left fst snd]. now rewrite A.
  - destruct (plain (toLowerCase e)); [|reflexivity].
    cbn [fold_left]. now rewrite A.
Qed.

(** C5, as amended.  The translation step of [speak] lower-cases the
    message and returns the Vietnamese value of the first key, in the
    order in which the dictionary object enumerates its keys, that occurs
    in the lower-cased message, or the message unchanged when no key
    occurs in it.  The object enumerates the keys that are array indices
    first, in ascending order, and then the other keys in insertion
    order; so as long as no added key is an array index, the enumeration
    order is the insertion order.  With the built-in dictionary,
    "I said thank you today" gives "Cảm ơn bạn". *)
Theorem translate_first_enumerated
    (phrases : JsObject.t) (adds : list (string * string)) (message : string) :
  translate phrases message = first_match (JsObject.entries phrases) message
  /\ (let o := JsObject.entries (vietnamesePhrases (add_phrases adds initial_state)) in
      canonical o = true
      /\ plain_entries o = insertion_order (filter plain_key adds)
      /\ (forallb plain_key adds = true -> o = insertion_order adds))
  /\ translate DEFAULT_VIETNAMESE_PHRASES "I said thank you today" = "Cảm ơn bạn".
Proof.
  split; [|split].
  - unfold translate, first_match. apply translate_loop_find.
  - unfold JsObject.entries. split; [|split].
    + now apply add_phrases_canonical.
    + now rewrite add_phrases_plain_entries.
    + intros H. unfold insertion_order.
      now rewrite (add_phrases_insertion_order adds initial_state H).
  - unfold translate. rewrite toLowerCase_ascii by reflexivity.
    vm_compute. reflexivity.
Qed.

(** ** Adding a phrase *)

Lemma truthy_false (s : string) : truthy s = false <-> s = "".
Proof. destruct s; simpl; split; congruence. Qed.

(** C6, as amended.  [addPhrase] raises the Input Error dialog and leaves
    the dictionary unchanged when either argument is the empty string;
    with two non-empty arguments (blank ones included) the entry keyed by
    the lower-cased English phrase then holds the Vietnamese phrase, and
    no other entry changes. *)
Theorem addPhrase_guard (english vietnamese : string) (st : State) :
  let st' := setCustomVietnamesePhrase english vietnamese st in
  (english = "" \/ vietnamese = "" ->
     alerts st' = alerts st ++ [InputError]
     /\ vietnamesePhrases st' = vietnamesePhrases st)
  /\ (english <> "" /\ vietnamese <> "" ->
     alerts st' = alerts st ++ [PhraseAdded english vietnamese]
     /\ JsObject.get (toLowerCase english) (vietnamesePhrases st') = Some vietnamese
     /\ forall k, k <> toLowerCase english ->
          JsObject.get k (vietnamesePhrases st') = JsObject.get k (vietnamesePhrases st)).
Proof.
  unfold setCustomVietnamesePhrase. split.
  - intros [H | H]; subst; simpl.
    + split; reflexivity.
    + rewrite orb_true_r. split; reflexivity.
  - intros [He Hv].
    destruct (truthy english) eqn:E1; [|apply truthy_false in E1; contradiction].
    destruct (truthy vietnamese) eqn:E2; [|apply truthy_false in E2; contradiction].
    simpl. split; [reflexivity|]. split.
    + apply JsObjectFacts.get_set_same.
    + intros k Hk. now apply JsObjectFacts.get_set_other.
Qed.

(** ** Discovery: the shape of the list *)

Lemma skipn_nth_error {A : Type} (l : list A) :
  forall i d, nth_error l i = Some d -> skipn i l = d :: skipn (S i) l.
Proof.
  induction l as [|x r IH]; intros [|i] d H; simpl in *; try discriminate.
  - now inversion H.
  - now apply IH.
Qed.

Lemma skipn_nth_error_None {A : Type} (l : list A) :
  forall i, nth_error l i = None -> skipn i l = [].
Proof.
  induction l as [|x r IH]; intros [|i] H; simpl in *; try discriminate; auto.
Qed.

(** The loop pushes the first [n] of the candidates from index [i] on. *)
Lemma push_loop_firstn (additional : list BluetoothDevice) :
  forall n i acc,
    push_loop additional n i acc = acc ++ firstn n (skipn i additional).
Proof.
  induction n as [|n IH]; intros i acc; simpl.
  - now rewrite app_nil_r.
  - destruct (nth_error additional i) as [d|] eqn:E.
    + rewrite IH, (skipn_nth_error _ _ _ E). simpl.
      now rewrite <- app_assoc.
    + rewrite IH.
      rewrite (skipn_nth_error_None _ _ E).
      assert (E' : nth_error additional (S i) = None).
      { apply nth_error_None. apply nth_error_None in E. lia. }
      rewrite (skipn_nth_error_None _ _ E').
      now destruct n.
Qed.

Lemma unflagged_app (l1 l2 : list BluetoothDevice) :
  unflagged (l1 ++ l2) = unflagged l1 && unflagged l2.
Proof. apply forallb_app. Qed.

Lemma unflagged_firstn (n : nat) (l : list BluetoothDevice) :
  unflagged l = true -> unflagged (firstn n l) = true.
Proof.
  revert n. induction l as [|d r IH]; intros [|n] H; simpl in *; auto.
  apply andb_true_iff in H. destruct H as [H1 H2].
  rewrite H1. simpl. now apply IH.
Qed.

Lemma unflagged_count (st : State) :
  unflagged (devices st) = true <-> connected_count st = 0%nat.
Proof.
  unfold connected_count, unflagged.
  induction (devices st) as [|d r IH]; simpl; [tauto|].
  destruct (is_connected d); simpl.
  - split; discriminate.
  - exact IH.
Qed.

Lemma additionalDevices_shape (r : Rng) :
  List.length (fst (additionalDevices r)) = 4%nat
  /\ unflagged (fst (additionalDevices r)) = true.
Proof.
  unfold additionalDevices.
  repeat match goal with
         | |- context [generateRandomId ?x] => destruct (generateRandomId x)
         end.
  simpl. split; reflexivity.
Qed.

(** The scan returns the baseline devices followed by some of the
    candidates. *)
Lemma discover_shape (r : Rng) :
  exists n r1,
    fst (discover r) = MOCK_DEVICES ++ firstn n (fst (additionalDevices r1)).
Proof.
  unfold discover, Math_random.
  destruct (negb (Qle_bool (tape r (pos r)) (1 # 2))).
  - destruct (additionalDevices _) as [additional r2] eqn:E.
    cbn [fst]. rewrite push_loop_firstn. cbn [skipn].
    eexists _, _. rewrite E. reflexivity.
  - exists 0%nat, r. reflexivity.
Qed.

Lemma discover_unflagged (r : Rng) : unflagged (fst (discover r)) = true.
Proof.
  destruct (discover_shape r) as (n & r1 & ->).
  rewrite unflagged_app. apply andb_true_intro. split; [reflexivity|].
  apply unflagged_firstn. apply additionalDevices_shape.
Qed.

Lemma scanForDevices_devices (r : Rng) (st : State) :
  devices (fst (scanForDevices r st)) = fst (discover r).
Proof.
  unfold scanForDevices. destruct (discover r). reflexivity.
Qed.

Lemma scanForDevices_frame (r : Rng) (st : State) :
  let st' := fst (scanForDevices r st) in
  connectedDevice st' = connectedDevice st
  /\ isSpeaking st' = isSpeaking st
  /\ alerts st' = alerts st
  /\ ttsCalls st' = ttsCalls st.
Proof.
  unfold scanForDevices. destruct (discover r). simpl. repeat split.
Qed.

(** ** Connection and disconnection *)

Lemma unflagged_map_disconnect (l : list BluetoothDevice) :
  unflagged (map (with_connected false) l) = true.
Proof.
  induction l as [|d r IH]; simpl; [reflexivity | exact IH].
Qed.

(** What [forceConnectToDevice] leaves alone, and what it keeps true. *)
Lemma forceConnectToDevice_frame (q : string) (r : Rng) (st : State) :
  let st' := snd (fst (forceConnectToDevice q r st)) in
  connectedDevice st' = connectedDevice st
  /\ isSpeaking st' = isSpeaking st
  /\ ttsCalls st' = ttsCalls st
  /\ (unflagged (devices st) = true -> unflagged (devices st') = true).
Proof.
  unfold forceConnectToDevice.
  destruct (find (matches q) (devices st)) as [d|] eqn:F.
  - simpl. repeat split; auto.
  - destruct (truthy q) eqn:T.
    + pose proof (scanForDevices_frame r st) as Hf.
      pose proof (scanForDevices_devices r st) as Hd.
      destruct (scanForDevices r st) as [st1 r1]. simpl in Hf, Hd.
      destruct Hf as (H1 & H2 & H3 & H4).
      destruct (List.length (devices st) =? 0)%nat.
      * simpl. repeat split; auto.
        intros _. rewrite Hd. apply discover_unflagged.
      * destruct (generateRandomId r1) as [i r2].
        destruct (generateRandomId r2) as [a r3].
        simpl. repeat split; auto.
        intros _. rewrite unflagged_app, Hd, discover_unflagged. reflexivity.
    + destruct (List.length (devices st) =? 0)%nat; simpl; repeat split; auto.
Qed.

Lemma getAvailableLanguages_frame (engine : Engine) (b : VoicesBehaviour) (st : State) :
  let st' := snd (getAvailableLanguages engine b st) in
  connectedDevice st' = connectedDevice st
  /\ devices st' = devices st
  /\ isSpeaking st' = isSpeaking st.
Proof.
  unfold getAvailableLanguages.
  destruct engine; [destruct (snd (detectVoices b))|]; simpl; repeat split.
Qed.

Lemma setCustomVietnamesePhrase_frame (e v : string) (st : State) :
  let st' := setCustomVietnamesePhrase e v st in
  connectedDevice st' = connectedDevice st
  /\ devices st' = devices st
  /\ isSpeaking st' = isSpeaking st.
Proof.
  unfold setCustomVietnamesePhrase.
  destruct (negb (truthy e) || negb (truthy v)); simpl; repeat split.
Qed.

Lemma initTts_frame (engine : Engine) (b : VoicesBehaviour) (st : State) :
  let st' := initTts engine b st in
  connectedDevice st' = connectedDevice st
  /\ devices st' = devices st
  /\ isSpeaking st' = isSpeaking st.
Proof.
  unfold initTts. destruct engine; simpl; repeat split.
Qed.

Lemma disconnectDevice_frame (st : State) :
  isSpeaking (disconnectDevice st) = isSpeaking st.
Proof.
  unfold disconnectDevice. destruct (connectedDevice st); reflexivity.
Qed.

(** The events of speaking touch neither the registry nor the connection. *)
Lemma step_registry (engine : Engine) (e : Event) (a a' : Async) :
  step engine e a = Some a' ->
  connectedDevice (store a') = connectedDevice (store a)
  /\ devices (store a') = devices (store a).
Proof.
  destruct e as [snap message|i|i ok|i| | | |]; simpl.
  - unfold speak_enter, speak_dispatch.
    destruct (connectedDevice snap); [destruct (isSpeaking snap)|];
      intros H; inversion H; subst; simpl; split; reflexivity.
  - destruct (nth_error (tasks a) i) as [[m| |]|]; try discriminate.
    intros H; inversion H; subst; simpl; split; reflexivity.
  - destruct (nth_error (tasks a) i) as [[m| |]|]; try discriminate.
    destruct ok; intros H; inversion H; subst; simpl; split; reflexivity.
  - destruct (nth_error (tasks a) i) as [[m| |]|]; try discriminate.
    intros H; inversion H; subst; simpl; split; reflexivity.
  - destruct engine; try discriminate.
    intros H; inversion H; subst; simpl; split; reflexivity.
  - destruct engine; try discriminate.
    intros H; inversion H; subst; simpl; split; reflexivity.
  - destruct engine; try discriminate.
    intros H; inversion H; subst; simpl; split; reflexivity.
  - destruct engine; try discriminate.
    intros H; inversion H; subst; simpl; split; reflexivity.
Qed.

Lemma apply_op_flags_bounded (engine : Engine) (o : Op) (a : Async) :
  flags_bounded (store a) -> flags_bounded (store (apply_op engine o a)).
Proof.
  unfold flags_bounded. intros Inv.
  destruct o as [b|r|d|d| | |q r|e v|b|e]; unfold apply_op, on_store; cbn [store].
  - destruct (initTts_frame engine b (setDevices (fun _ => MOCK_DEVICES) (store a)))
      as (H1 & H2 & _).
    rewrite H1, H2. intros _. reflexivity.
  - intros _. rewrite scanForDevices_devices. apply discover_unflagged.
  - exact Inv.
  - discriminate.
  - unfold disconnectDevice.
    destruct (connectedDevice (store a)) eqn:E; simpl.
    + intros _. apply unflagged_map_disconnect.
    + rewrite E. exact Inv.
  - exact Inv.
  - destruct (forceConnectToDevice_frame q r (store a)) as (H1 & _ & _ & H4).
    rewrite H1. intros E. apply H4. now apply Inv.
  - destruct (setCustomVietnamesePhrase_frame e v (store a)) as (H1 & H2 & _).
    now rewrite H1, H2.
  - destruct (getAvailableLanguages_frame engine b (store a)) as (H1 & H2 & _).
    now rewrite H1, H2.
  - destruct (step engine e a) as [a'|] eqn:E; [|exact Inv].
    destruct (step_registry _ _ _ _ E) as [H1 H2].
    now rewrite H1, H2.
Qed.

Lemma reach_flags_bounded (engine : Engine) (ops : list Op) :
  flags_bounded (store (reach engine ops)).
Proof.
  unfold reach.
  assert (H0 : flags_bounded (store (at_rest initial_state))) by (intros _; reflexivity).
  revert H0. generalize (at_rest initial_state).
  induction ops as [|o r IH]; intros a Ha; simpl; [exact Ha|].
  apply IH. now apply apply_op_flags_bounded.
Qed.

(** C2 fails on the code: [connect] flags the devices that carry the id
    of the new device and leaves the flag of the device connected before.
    After [connect] of the first and then of the second baseline device,
    the connected-device field holds the second, and two devices of the
    registry are in Connected state. *)
Theorem connect_keeps_previous_flag :
  let d0 := mkDevice (Some "Generic Bluetooth Speaker") "00:11:22:33:44:55"
                     (Some "00:11:22:33:44:55") (Some false) in
  let d1 := mkDevice (Some "WYS-2301BT") "00:22:33:44:55:66"
                     (Some "00:22:33:44:55:66") (Some false) in
  let st := connect d1 (connect d0 mounted_state) in
  devices mounted_state = MOCK_DEVICES
  /\ connectedDevice st = Some (with_connected true d1)
  /\ connected_count st = 2%nat
  /\ map id (filter is_connected (devices st)) = [id d0; id d1].
Proof.
  vm_compute. repeat split.
Qed.

(** C3.  From every state the hook can reach, [disconnect] leaves no
    device of the registry in Connected state and the connected-device
    field empty, and a second [disconnect] changes nothing; so it is when
    no device was connected to begin with. *)
Theorem disconnect_clears (engine : Engine) (ops : list Op) :
  let st := store (reach engine ops) in
  let st1 := disconnectDevice st in
  connected_count st1 = 0%nat
  /\ connectedDevice st1 = None
  /\ disconnectDevice st1 = st1.
Proof.
  intros st st1.
  pose proof (reach_flags_bounded engine ops) as Inv. fold st in Inv.
  assert (Hc : connectedDevice st1 = None).
  { unfold st1, disconnectDevice. destruct (connectedDevice st) eqn:E; [reflexivity | exact E]. }
  split; [|split].
  - apply unflagged_count. unfold st1, disconnectDevice.
    destruct (connectedDevice st) eqn:E; simpl.
    + apply unflagged_map_disconnect.
    + now apply Inv.
  - exact Hc.
  - unfold disconnectDevice at 1. now rewrite Hc.
Qed.

(** ** Speaking *)

(** C4.  [speak] called when no device is connected raises the No Device
    Connected dialog and returns: the log of engine calls is as before, no
    task is left behind, and nothing else of the state changes. *)
Theorem speak_requires_device (message : string) (a : Async) :
  connectedDevice (store a) = None ->
  speak message a = on_store (alert NoDeviceConnected) a
  /\ ttsCalls (store (speak message a)) = ttsCalls (store a)
  /\ alerts (store (speak message a)) = alerts (store a) ++ [NoDeviceConnected]
  /\ tasks (speak message a) = tasks a.
Proof.
  intros H. unfold speak, speak_enter. rewrite H. simpl.
  rewrite app_nil_r. repeat split.
Qed.

Lemma settled_pending (st : State) (l : list Task) (t : Task) (u : nat) :
  settled (mkAsync st (l ++ [t]) u) = false.
Proof. unfold settled. simpl. now destruct l. Qed.

(** Every event of speaking keeps a raised flag backed. *)
Lemma step_flag_backed (engine : Engine) (e : Event) (a a' : Async) :
  step engine e a = Some a' -> flag_backed a -> flag_backed a'.
Proof.
  unfold flag_backed.
  destruct e as [snap message|i|i ok|i| | | |]; simpl.
  - unfold speak_enter, speak_dispatch.
    destruct (connectedDevice snap); [destruct (isSpeaking snap)|];
      intros H Inv; inversion H; subst; simpl.
    + intros _. apply settled_pending.
    + intros _. apply settled_pending.
    + rewrite app_nil_r. destruct a; exact Inv.
  - destruct (nth_error (tasks a) i) as [[m| |]|]; try discriminate.
    intros H Inv; inversion H; subst; simpl.
    intros _. apply settled_pending.
  - destruct (nth_error (tasks a) i) as [[m| |]|]; try discriminate.
    destruct ok; intros H Inv; inversion H; subst; simpl.
    + intros _. apply settled_pending.
    + discriminate.
  - destruct (nth_error (tasks a) i) as [[m| |]|]; try discriminate.
    intros H Inv; inversion H; subst; simpl. discriminate.
  - destruct engine; try discriminate.
    intros H Inv; inversion H; subst; simpl.
    intros _. unfold settled. simpl. now destruct (tasks a).
  - destruct engine; try discriminate.
    intros H Inv; inversion H; subst; simpl. discriminate.
  - destruct engine; try discriminate.
    intros H Inv; inversion H; subst; simpl. discriminate.
  - destruct engine; try discriminate.
    intros H Inv; inversion H; subst; simpl. discriminate.
Qed.

Lemma on_store_flag_backed (f : State -> State) (a : Async) :
  isSpeaking (f (store a)) = isSpeaking (store a) ->
  flag_backed a -> flag_backed (on_store f a).
Proof.
  unfold flag_backed, on_store. simpl. intros E Inv H.
  rewrite E in H. destruct a. exact (Inv H).
Qed.

Lemma apply_op_flag_backed (engine : Engine) (o : Op) (a : Async) :
  flag_backed a -> flag_backed (apply_op engine o a).
Proof.
  intros Inv.
  destruct o as [b|r|d|d| | |q r|e v|b|e]; simpl;
    try (apply on_store_flag_backed; [|exact Inv]).
  - now destruct (initTts_frame engine b (setDevices (fun _ => MOCK_DEVICES) (store a)))
      as (_ & _ & ->).
  - apply scanForDevices_frame.
  - reflexivity.
  - reflexivity.
  - apply disconnectDevice_frame.
  - reflexivity.
  - apply forceConnectToDevice_frame.
  - apply setCustomVietnamesePhrase_frame.
  - apply getAvailableLanguages_frame.
  - destruct (step engine e a) as [a'|] eqn:E; [|exact Inv].
    exact (step_flag_backed _ _ _ _ E Inv).
Qed.

Lemma reach_flag_backed (engine : Engine) (ops : list Op) :
  flag_backed (reach engine ops).
Proof.
  unfold reach.
  assert (H0 : flag_backed (at_rest initial_state)) by (intros H; discriminate H).
  revert H0. generalize (at_rest initial_state).
  induction ops as [|o r IH]; intros a Ha; simpl; [exact Ha|].
  apply IH. now apply apply_op_flag_backed.
Qed.

(** C7.  Whatever the hook has been through (calls of [speak] in any
    interleaving, engine calls that fail, timers, engine events, the
    other operations), once nothing is pending any more (no suspended call, no
    timer, no utterance under way) the speaking flag is [false]. *)
Theorem speaking_flag_settles (engine : Engine) (ops : list Op) :
  settled (reach engine ops) = true ->
  isSpeaking (store (reach engine ops)) = false.
Proof.
  intros Hs.
  pose proof (reach_flag_backed engine ops) as Inv. unfold flag_backed in Inv.
  destruct (isSpeaking (store (reach engine ops))); [|reflexivity].
  rewrite (Inv eq_refl) in Hs. discriminate Hs.
Qed.

(** ** Discovery: the identifiers *)

Lemma NoDup_app_iff {A : Type} (l1 l2 : list A) :
  NoDup (l1 ++ l2) <->
  NoDup l1 /\ NoDup l2 /\ (forall a, In a l1 -> ~ In a l2).
Proof.
  induction l1 as [|x l1 IH]; simpl.
  - split.
    + intros H. repeat split; [constructor | exact H | tauto].
    + tauto.
  - rewrite !NoDup_cons_iff, IH, in_app_iff. split.
    + intros (Hx & H1 & H2 & H3). repeat split; try tauto.
      intros a [<- | Ha]; [tauto | now apply H3].
    + intros ((Hx & H1) & H2 & H3). repeat split; try tauto.
      * intros [H | H]; [tauto | exact (H3 x (or_introl eq_refl) H)].
      * intros a Ha. apply H3. now right.
Qed.

(** With draws in [0, 1), one to three devices are appended. *)
Lemma numToAdd_bound (y : Q) :
  (0 <= y)%Q -> (y < 1)%Q -> (Z.to_nat (Qfloor (y * 3) + 1) <= 3)%nat.
Proof.
  intros _ H1.
  assert (H : (Qfloor (y * 3) < 3)%Z).
  { rewrite Zlt_Qlt.
    apply Qle_lt_trans with (y * 3)%Q; [apply Qfloor_le|].
    change (inject_Z 3) with (1 * 3)%Q.
    apply Qmult_lt_compat_r; [reflexivity | exact H1]. }
  lia.
Qed.

(** Drawing consumes the tape and does not change it. *)
Lemma random_hex_tape (r : Rng) : tape (snd (random_hex r)) = tape r.
Proof. reflexivity. Qed.

Lemma random_section_tape (r : Rng) : tape (snd (random_section r)) = tape r.
Proof.
  unfold random_section.
  pose proof (random_hex_tape r) as H1.
  destruct (random_hex r) as [a r1]. cbn [snd] in H1.
  pose proof (random_hex_tape r1) as H2.
  destruct (random_hex r1) as [b r2]. cbn [snd] in *.
  congruence.
Qed.

Lemma generateRandomId_loop_tape (n : nat) :
  forall i result r, tape (snd (generateRandomId_loop n i result r)) = tape r.
Proof.
  induction n as [|n IH]; intros i result r; cbn [generateRandomId_loop].
  - reflexivity.
  - pose proof (random_section_tape r) as H.
    destruct (random_section r) as [section r1]. cbn [snd] in H.
    rewrite IH. exact H.
Qed.

Lemma generateRandomId_tape (r : Rng) : tape (snd (generateRandomId r)) = tape r.
Proof. apply generateRandomId_loop_tape. Qed.

Lemma additionalDevices_tape (r : Rng) : tape (snd (additionalDevices r)) = tape r.
Proof.
  unfold additionalDevices.
  repeat match goal with
         | |- context [generateRandomId ?x] =>
             let H := fresh "H" in
             pose proof (generateRandomId_tape x) as H;
             destruct (generateRandomId x); cbn [snd] in H
         end.
  cbn [snd]. congruence.
Qed.

Lemma discover_appended (r : Rng) :
  tape_ok r ->
  exists appended,
    fst (discover r) = MOCK_DEVICES ++ appended
    /\ (List.length appended <= 3)%nat.
Proof.
  intros Hr. unfold discover, Math_random.
  destruct (negb (Qle_bool (tape r (pos r)) (1 # 2))).
  - pose proof (additionalDevices_tape (mkRng (tape r) (S (pos r)))) as Ht.
    destruct (additionalDevices _) as [additional r2].
    cbn [fst snd tape pos] in *.
    rewrite push_loop_firstn. cbn [skipn].
    eexists. split; [reflexivity|].
    etransitivity; [apply firstn_le_length|].
    rewrite Ht.
    destruct (Hr (pos r2)) as [H0 H1]. now apply numToAdd_bound.
  - exists []. split; [reflexivity | simpl; lia].
Qed.

(** C8, as amended.  The list a scan installs is the three baseline
    devices, whose ids differ pairwise, followed by at most three
    appended devices; its ids are pairwise different exactly when the
    generated ids of the appended devices differ from one another and
    from the three baseline ids. *)
Theorem discover_ids (r : Rng) (st : State) :
  tape_ok r ->
  let ds := fst (discover r) in
  let appended := skipn 3 ds in
  devices (fst (scanForDevices r st)) = ds
  /\ ds = MOCK_DEVICES ++ appended
  /\ NoDup (map id MOCK_DEVICES)
  /\ (List.length appended <= 3)%nat
  /\ (NoDup (map id ds) <->
      NoDup (map id appended)
      /\ forall d, In d appended -> ~ In (id d) (map id MOCK_DEVICES)).
Proof.
  intros Hr ds appended.
  destruct (discover_appended r Hr) as (app & Hds & Hlen).
  assert (Happ : appended = app).
  { unfold appended, ds. rewrite Hds. reflexivity. }
  assert (Hbase : NoDup (map id MOCK_DEVICES)).
  { simpl. repeat constructor; simpl; intuition discriminate. }
  split; [apply scanForDevices_devices|].
  split; [rewrite Happ; exact Hds|].
  split; [exact Hbase|].
  split; [rewrite Happ; exact Hlen|].
  rewrite Happ. unfold ds. rewrite Hds, map_app, NoDup_app_iff. split.
  - intros (_ & H2 & H3). split; [exact H2|].
    intros d Hd Hin. apply (H3 _ Hin). now apply in_map.
  - intros (H2 & H3). repeat split; auto.
    intros a Ha Hin. apply in_map_iff in Hin. destruct Hin as (d & <- & Hd).
    exact (H3 d Hd Ha).
Qed.

Lemma three_quarters_ok : tape_ok three_quarters.
Proof. intros n. simpl. split; [discriminate | reflexivity]. Qed.

Lemma varied_ok : tape_ok varied.
Proof.
  intros n. unfold varied. cbn [tape].
  destruct ((n =? 0)%nat || (n =? 97)%nat).
  - split; [discriminate | reflexivity].
  - set (m := ((n / 12 + n) mod 16)%nat).
    assert (Hm : (m < 16)%nat) by (apply Nat.mod_upper_bound; discriminate).
    split.
    + unfold Qle. cbn [Qnum Qden]. lia.
    + unfold Qlt. cbn [Qnum Qden]. lia.
Qed.

(** ** Forced connection *)

Lemma truthy_true (s : string) : s <> "" -> truthy s = true.
Proof. destruct s; [congruence | reflexivity]. Qed.

Lemma pressOK_flags (d : BluetoothDevice) (st : State) :
  In d (devices st) -> In (with_connected true d) (devices (pressOK d st)).
Proof.
  intros H. unfold pressOK. simpl.
  apply in_map_iff. exists d. split; [|exact H].
  now rewrite String.eqb_refl.
Qed.

(** ** Voices and languages *)

(** The run of the event loop, by the behaviour of the engine: the
    callback that falls due first settles the promise, and the timer,
    armed first, goes first when both fall due together. *)
Lemma voicesPromise_run (b : VoicesBehaviour) :
  voicesPromise b
  = match b with
    | Resolves ms v =>
        if (ms <? VOICE_TIMEOUT)%N
        then mkPromise (Some (ms, Fulfilled (or_empty v))) []
               [(ms, ThenCallback v)]
        else mkPromise (Some (VOICE_TIMEOUT, Fulfilled fallbackVoices)) []
               [(VOICE_TIMEOUT, TimerCallback); (ms, ThenCallback v)]
    | Rejects ms =>
        if (ms <? VOICE_TIMEOUT)%N
        then mkPromise (Some (ms, Fulfilled fallbackVoices)) []
               [(ms, CatchCallback)]
        else mkPromise (Some (VOICE_TIMEOUT, Fulfilled fallbackVoices)) []
               [(VOICE_TIMEOUT, TimerCallback); (ms, CatchCallback)]
    | Throws =>
        mkPromise (Some (0%N, Rejected)) [] [(VOICE_TIMEOUT, TimerCallback)]
    | Hangs =>
        mkPromise (Some (VOICE_TIMEOUT, Fulfilled fallbackVoices)) []
          [(VOICE_TIMEOUT, TimerCallback)]
    end.
Proof.
  destruct b as [ms v|ms| |];
    unfold voicesPromise, executor, call_voices, setTimeout, reject;
    cbn [agenda outcome ran schedule];
    change (0 + VOICE_TIMEOUT)%N with VOICE_TIMEOUT;
    try change (0 + ms)%N with ms;
    try destruct (ms <? VOICE_TIMEOUT)%N;
    reflexivity.
Qed.

Lemma detectVoices_run (b : VoicesBehaviour) :
  awaitVoices b = Some (detectVoices b)
  /\ detectVoices b
     = match b with
       | Resolves ms v =>
           if (ms <? VOICE_TIMEOUT)%N then (ms, or_empty v)
           else (VOICE_TIMEOUT, fallbackVoices)
       | Rejects ms =>
           if (ms <? VOICE_TIMEOUT)%N then (ms, fallbackVoices)
           else (VOICE_TIMEOUT, fallbackVoices)
       | Throws => (0%N, fallbackVoices)
       | Hangs => (VOICE_TIMEOUT, fallbackVoices)
       end.
Proof.
  unfold detectVoices, awaitVoices. rewrite voicesPromise_run.
  destruct b as [ms v|ms| |];
    try destruct (ms <? VOICE_TIMEOUT)%N; split; reflexivity.
Qed.

Lemma detectVoices_fallback (b : VoicesBehaviour) :
  times_out b = true \/ errors b = true ->
  snd (detectVoices b) = fallbackVoices.
Proof.
  rewrite (proj2 (detectVoices_run b)).
  destruct b as [ms v|ms| |]; cbn [times_out errors];
    intros [H | H]; try discriminate; try reflexivity.
  - apply N.leb_le in H.
    destruct (N.ltb_spec ms VOICE_TIMEOUT); [lia | reflexivity].
  - now destruct (ms <? VOICE_TIMEOUT)%N.
  - now destruct (ms <? VOICE_TIMEOUT)%N.
Qed.

(** C9.  The voice query is raced against a timer of 3000 ms.  The
    promise the hook awaits is settled by the callback that runs first,
    and the event loop leaves no callback behind: the await always
    returns, never later than 3000 ms.  An engine that answers before the
    timer is due is heard: the await returns at the time of the answer
    with the engine's voices (the empty list for a null answer), and the
    timer, cleared, never runs.  When the engine is lost to the timer the
    timer's callback runs first and the await returns at 3000 ms; when
    the query times out or fails, the voices are the one-element fallback,
    whose language is vi-VN, and the caller of [getAvailableLanguages]
    gets the list of that one language. *)
Theorem listVoices_fallback (b : VoicesBehaviour) (st : State) :
  VOICE_TIMEOUT = 3000%N
  /\ awaitVoices b = Some (detectVoices b)
  /\ agenda (voicesPromise b) = []
  /\ (fst (detectVoices b) <= VOICE_TIMEOUT)%N
  /\ (forall ms v, b = Resolves ms v -> (ms < VOICE_TIMEOUT)%N ->
        detectVoices b = (ms, or_empty v)
        /\ ran (voicesPromise b) = [(ms, ThenCallback v)])
  /\ (times_out b = true ->
        fst (detectVoices b) = VOICE_TIMEOUT
        /\ hd_error (ran (voicesPromise b)) = Some (VOICE_TIMEOUT, TimerCallback))
  /\ (times_out b = true \/ errors b = true ->
      snd (detectVoices b) = VoiceArray [Some fallbackVoice]
      /\ Voice.language fallbackVoice = Some "vi-VN"
      /\ fst (getAvailableLanguages NativeTts b st) = ["vi-VN"]).
Proof.
  destruct (detectVoices_run b) as [Ha Hd].
  split; [reflexivity|]. split; [exact Ha|]. split; [|split; [|split; [|split]]].
  - rewrite voicesPromise_run.
    destruct b as [ms v|ms| |]; try destruct (ms <? VOICE_TIMEOUT)%N; reflexivity.
  - rewrite Hd. destruct b as [ms v|ms| |];
      try (destruct (N.ltb_spec ms VOICE_TIMEOUT)); cbn [fst];
      unfold VOICE_TIMEOUT in *; lia.
  - intros ms v -> Hlt. rewrite Hd, voicesPromise_run.
    destruct (N.ltb_spec ms VOICE_TIMEOUT); [split; reflexivity | lia].
  - rewrite Hd, voicesPromise_run. destruct b as [ms v|ms| |]; cbn [times_out];
      intros H; try discriminate; try (split; reflexivity);
      apply N.leb_le in H;
      destruct (N.ltb_spec ms VOICE_TIMEOUT); try lia; split; reflexivity.
  - intros H. pose proof (detectVoices_fallback b H) as E.
    split; [exact E|]. split; [reflexivity|].
    unfold getAvailableLanguages. rewrite E. reflexivity.
Qed.

Lemma array_includes_In (l : list string) (x : string) :
  array_includes l x = true -> In x l.
Proof.
  unfold array_includes. intros H.
  apply existsb_exists in H. destruct H as (y & Hy & E).
  apply String.eqb_eq in E. now subst.
Qed.

(** C10.  Every list [getAvailableLanguages] returns contains vi-VN: on
    the mock engine it is vi-VN, en-US; on the native engine it is the
    distinct languages of the voices, with vi-VN appended when they lack
    it; when the voices value is no array it is the fallback vi-VN, en-US.
    The list returned is also the one stored. *)
Theorem languages_include_vietnamese (engine : Engine) (b : VoicesBehaviour) (st : State) :
  In "vi-VN" (fst (getAvailableLanguages engine b st))
  /\ availableLanguages (snd (getAvailableLanguages engine b st))
     = fst (getAvailableLanguages engine b st)
  /\ fst (getAvailableLanguages MockTts b st) = ["vi-VN"; "en-US"]
  /\ (forall voices,
        snd (detectVoices b) = VoiceArray voices ->
        let u := unique [] (voice_languages voices) in
        fst (getAvailableLanguages NativeTts b st)
        = if array_includes u "vi-VN" then u else u ++ ["vi-VN"])
  /\ (snd (detectVoices b) = NotArray ->
      fst (getAvailableLanguages NativeTts b st) = ["vi-VN"; "en-US"]).
Proof.
  split; [|split; [|split; [|split]]].
  - unfold getAvailableLanguages. destruct engine; [|simpl; auto].
    destruct (snd (detectVoices b)) as [|voices|]; try (simpl; auto; fail).
    cbn [fst].
    destruct (array_includes (unique [] (voice_languages voices)) "vi-VN") eqn:E; cbn [negb].
    + now apply array_includes_In.
    + apply in_or_app. right. now left.
  - unfold getAvailableLanguages. destruct engine; [|reflexivity].
    destruct (snd (detectVoices b)); reflexivity.
  - reflexivity.
  - intros voices E u. unfold getAvailableLanguages. rewrite E. cbn [fst].
    fold u. now destruct (array_includes u "vi-VN").
  - intros E. unfold getAvailableLanguages. rewrite E. reflexivity.
Qed.

(** ** Generated identifiers *)

Lemma tape_ok_same (r r' : Rng) : tape r' = tape r -> tape_ok r -> tape_ok r'.
Proof. unfold tape_ok. intros -> H. exact H. Qed.

(** A draw in [0, 1) scaled by [k] and floored is an index below [k]. *)
Lemma floor_scaled_bound (x : Q) (k : Z) :
  (0 < k)%Z -> (0 <= x)%Q -> (x < 1)%Q ->
  (0 <= Qfloor (x * inject_Z k) < k)%Z.
Proof.
  intros Hk H0 H1.
  assert (Hk' : (0 < inject_Z k)%Q).
  { change (inject_Z 0 < inject_Z k)%Q. rewrite <- Zlt_Qlt. exact Hk. }
  split.
  - change 0%Z with (Qfloor 0). apply Qfloor_resp_le.
    apply Qmult_le_0_compat; [exact H0 | now apply Qlt_le_weak].
  - rewrite Zlt_Qlt.
    apply Qle_lt_trans with (x * inject_Z k)%Q; [apply Qfloor_le|].
    apply Qlt_le_trans with (1 * inject_Z k)%Q.
    + now apply Qmult_lt_compat_r.
    + rewrite Qmult_1_l. apply Qle_refl.
Qed.

Lemma random_hex_spec (r : Rng) :
  tape_ok r ->
  exists c,
    random_hex r = (String c "", mkRng (tape r) (S (pos r)))
    /\ is_hex c = true.
Proof.
  intros Hr. unfold random_hex, Math_random.
  destruct (Hr (pos r)) as [H0 H1].
  change (inject_Z (Z.of_nat (String.length hexChars))) with (inject_Z 16).
  pose proof (floor_scaled_bound (tape r (pos r)) 16 ltac:(lia) H0 H1) as Hz.
  set (z := Qfloor (tape r (pos r) * inject_Z 16)) in *.
  assert (Hc : (z = 0 \/ z = 1 \/ z = 2 \/ z = 3 \/ z = 4 \/ z = 5 \/ z = 6 \/ z = 7
               \/ z = 8 \/ z = 9 \/ z = 10 \/ z = 11 \/ z = 12 \/ z = 13
               \/ z = 14 \/ z = 15)%Z) by lia.
  clearbody z.
  repeat (destruct Hc as [Hc | Hc]);
    subst z; eexists; (split; [reflexivity | reflexivity]).
Qed.

Lemma random_section_spec (r : Rng) :
  tape_ok r ->
  exists a b,
    random_section r = (String a (String b ""), mkRng (tape r) (2 + pos r))
    /\ is_hex a = true /\ is_hex b = true.
Proof.
  intros Hr. unfold random_section.
  destruct (random_hex_spec r Hr) as (a & Ea & Ha). rewrite Ea.
  destruct (random_hex_spec (mkRng (tape r) (S (pos r))) Hr) as (b & Eb & Hb).
  rewrite Eb. exists a, b. repeat split; assumption.
Qed.

(** X1.  With draws in [0, 1), [generateRandomId] returns six sections
    of two hexadecimal digits joined by colons, 17 characters in all, and
    consumes exactly twelve draws. *)
Theorem generateRandomId_shape (r : Rng) :
  tape_ok r ->
  address_sections 6 (fst (generateRandomId r)) = true
  /\ String.length (fst (generateRandomId r)) = 17%nat
  /\ snd (generateRandomId r) = mkRng (tape r) (12 + pos r).
Proof.
  intros Hr. unfold generateRandomId. cbn [generateRandomId_loop].
  repeat match goal with
         | |- context [random_section ?x] =>
             let a := fresh "a" in
             let b := fresh "b" in
             let E := fresh "E" in
             let Ha := fresh "Ha" in
             let Hb := fresh "Hb" in
             destruct (random_section_spec x Hr) as (a & b & E & Ha & Hb);
             rewrite E; cbn [tape pos]
         end.
  cbn [fst snd Nat.ltb Nat.leb String.append].
  split; [|split; reflexivity].
  cbn [address_sections].
  repeat match goal with
         | H : is_hex _ = true |- _ => rewrite H; clear H
         end.
  reflexivity.
Qed.

(** ** Discovery: which devices are appended *)

Lemma additionalDevices_names (r : Rng) :
  exists i1 a1 i2 a2 i3 a3 i4 a4,
    fst (additionalDevices r)
    = [ mkDevice (Some "JBL Flip") i1 (Some a1) (Some false);
        mkDevice (Some "Bose SoundLink") i2 (Some a2) (Some false);
        mkDevice (Some "Sony SRS-XB12") i3 (Some a3) (Some false);
        mkDevice (Some "Anker Soundcore") i4 (Some a4) (Some false) ].
Proof.
  unfold additionalDevices.
  repeat match goal with
         | |- context [generateRandomId ?x] => destruct (generateRandomId x)
         end.
  cbn [fst]. repeat eexists.
Qed.

(** X2.  With draws in [0, 1), the devices a scan appends to the
    baseline are the first [n] of JBL Flip, Bose SoundLink and Sony
    SRS-XB12, in that order: none when the first draw is at most 0.5, one
    to three otherwise.  The fourth candidate, Anker Soundcore, is never
    listed. *)
Theorem discover_appends_prefix (r : Rng) :
  tape_ok r ->
  let ds := fst (discover r) in
  exists n,
    (n <= 3)%nat
    /\ map name (skipn 3 ds) = map Some (firstn n appendable_names)
    /\ (Qle_bool (tape r (pos r)) (1 # 2) = true -> n = 0%nat)
    /\ (Qle_bool (tape r (pos r)) (1 # 2) = false -> (1 <= n)%nat)
    /\ existsb (named "Anker Soundcore") ds = false.
Proof.
  intros Hr. unfold discover, Math_random.
  destruct (Qle_bool (tape r (pos r)) (1 # 2)) eqn:Hx; cbn [negb].
  - exists 0%nat. cbn [fst]. repeat split; try reflexivity; try lia; try discriminate.
  - pose proof (additionalDevices_tape (mkRng (tape r) (S (pos r)))) as Ht.
    destruct (additionalDevices_names (mkRng (tape r) (S (pos r))))
      as (i1 & a1 & i2 & a2 & i3 & a3 & i4 & a4 & Ea).
    destruct (additionalDevices _) as [additional r2].
    cbn [fst snd tape pos] in *. subst additional.
    rewrite push_loop_firstn. cbn [skipn].
    destruct (Hr (pos r2)) as [H0 H1]. rewrite <- Ht in H0, H1.
    pose proof (floor_scaled_bound _ 3 ltac:(lia) H0 H1) as Hz.
    change (inject_Z 3) with 3%Q in Hz.
    set (z := Qfloor (tape r2 (pos r2) * 3)) in *. clearbody z.
    assert (Hc : (z = 0 \/ z = 1 \/ z = 2)%Z) by lia.
    destruct Hc as [Hc | [Hc | Hc]]; subst z.
    + exists 1%nat. repeat split; try reflexivity; try lia; try discriminate.
    + exists 2%nat. repeat split; try reflexivity; try lia; try discriminate.
    + exists 3%nat. repeat split; try reflexivity; try lia; try discriminate.
Qed.

(** X3.  After a scan no device of the registry is in Connected state
    and the scanning flag is down, while the connected-device field, the
    dictionary and the dialogs are as before: a scan made while a device
    is connected leaves that device connected and unflagged. *)
Theorem scan_drops_flags (r : Rng) (st : State) :
  let st' := fst (scanForDevices r st) in
  connected_count st' = 0%nat
  /\ isScanning st' = false
  /\ connectedDevice st' = connectedDevice st
  /\ vietnamesePhrases st' = vietnamesePhrases st
  /\ alerts st' = alerts st
  /\ ttsCalls st' = ttsCalls st.
Proof.
  intros st'. split.
  - apply unflagged_count. unfold st'.
    rewrite scanForDevices_devices. apply discover_unflagged.
  - unfold st', scanForDevices. destruct (discover r). cbn. repeat split.
Qed.

(** ** Connection: what OK does to the registry *)

Lemma with_connected_false_id (d : BluetoothDevice) :
  connected d = Some false -> with_connected false d = d.
Proof. destruct d as [n i a c]. cbn. now intros ->. Qed.

Lemma pressOK_devices (d : BluetoothDevice) (st : State) :
  devices (pressOK d st)
  = map (fun x => if String.eqb (id x) (id d) then with_connected true x else x)
        (devices st).
Proof. reflexivity. Qed.

Lemma flag_unlisted (d : BluetoothDevice) (l : list BluetoothDevice) :
  ~ In (id d) (map id l) ->
  map (fun x => if String.eqb (id x) (id d) then with_connected true x else x) l = l.
Proof.
  induction l as [|x r IH]; intros H; [reflexivity|].
  cbn [map] in *. rewrite IH by (intros Hr; apply H; now right).
  destruct (String.eqb (id x) (id d)) eqn:E; [|reflexivity].
  apply String.eqb_eq in E. elim H. now left.
Qed.

Lemma flag_listed (d : BluetoothDevice) (l : list BluetoothDevice) :
  unflagged l = true ->
  NoDup (map id l) ->
  In (id d) (map id l) ->
  map id
    (filter is_connected
       (map (fun x => if String.eqb (id x) (id d) then with_connected true x else x) l))
  = [id d].
Proof.
  induction l as [|x r IH]; intros Hu Hn Hi; [elim Hi|].
  cbn [map unflagged forallb] in *.
  apply andb_true_iff in Hu. destruct Hu as [Hx Hr].
  apply NoDup_cons_iff in Hn. destruct Hn as [Hnx Hnr].
  destruct (String.eqb (id x) (id d)) eqn:E.
  - apply String.eqb_eq in E.
    cbn [filter is_connected with_connected connected map id].
    rewrite (flag_unlisted d r) by (rewrite <- E; exact Hnx).
    replace (filter is_connected r) with (@nil BluetoothDevice); [now rewrite E|].
    clear - Hr. induction r as [|y r IH]; [reflexivity|].
    cbn [unflagged forallb filter] in *.
    apply andb_true_iff in Hr. destruct Hr as [Hy Hr].
    destruct (is_connected y); [discriminate | now apply IH].
  - cbn [filter]. destruct (is_connected x); [discriminate|].
    apply IH; try assumption.
    destruct Hi as [Hi | Hi]; [|exact Hi].
    apply String.eqb_neq in E. congruence.
Qed.

(** X4.  When no device of the registry is flagged, the ids of the
    registry are pairwise different and one of them is the id of D, then
    after [connect(D)] exactly one device of the registry is in Connected
    state, it carries the id of D, the connected-device field holds D, and
    the ids of the registry are as before. *)
Theorem connect_single (d : BluetoothDevice) (st : State) :
  unflagged (devices st) = true ->
  NoDup (map id (devices st)) ->
  In (id d) (map id (devices st)) ->
  let st' := connect d st in
  connected_count st' = 1%nat
  /\ map id (filter is_connected (devices st')) = [id d]
  /\ connectedDevice st' = Some (with_connected true d)
  /\ map id (devices st') = map id (devices st).
Proof.
  intros Hu Hn Hi st'.
  assert (H : map id (filter is_connected (devices st')) = [id d]).
  { unfold st', connect. rewrite pressOK_devices. cbn [connectToDevice snd alert devices].
    now apply flag_listed. }
  split; [|split; [exact H|split; [reflexivity|]]].
  - unfold connected_count. rewrite <- (length_map id), H. reflexivity.
  - unfold st', connect. rewrite pressOK_devices. cbn [connectToDevice snd alert devices].
    rewrite map_map. apply map_ext. intros x.
    now destruct (String.eqb (id x) (id d)).
Qed.

(** X5.  On a registry whose devices all report [connected: false],
    [connect(D)] followed by [disconnect()] gives the registry back as it
    was, with the connected-device field empty. *)
Theorem connect_disconnect_roundtrip (d : BluetoothDevice) (st : State) :
  all_disconnected (devices st) = true ->
  let st' := disconnectDevice (connect d st) in
  devices st' = devices st
  /\ connectedDevice st' = None
  /\ connected_count st' = 0%nat.
Proof.
  intros H st'.
  assert (Hd : devices st' = devices st).
  { unfold st', connect, disconnectDevice, pressOK. cbn.
    rewrite map_map.
    induction (devices st) as [|x r IH]; [reflexivity|].
    cbn [all_disconnected forallb map] in *.
    apply andb_true_iff in H. destruct H as [Hx Hr].
    rewrite (IH Hr). f_equal.
    destruct (connected x) as [[|]|] eqn:E; try discriminate.
    destruct (String.eqb (id x) (id d)).
    - destruct x as [n i a c]. cbn in *. now subst c.
    - now apply with_connected_false_id. }
  split; [exact Hd|]. split; [reflexivity|].
  apply unflagged_count. unfold st', connect, disconnectDevice, pressOK. cbn.
  apply unflagged_map_disconnect.
Qed.

(** X6.  [connect(D)] for a device whose id no device of the registry
    carries changes no device of the registry: the connected-device field
    holds D while the registry reports the same devices as before, none
    of them D. *)
Theorem connect_unlisted (d : BluetoothDevice) (st : State) :
  ~ In (id d) (map id (devices st)) ->
  let st' := connect d st in
  devices st' = devices st
  /\ connectedDevice st' = Some (with_connected true d)
  /\ connected_count st' = connected_count st.
Proof.
  intros H st'.
  assert (Hd : devices st' = devices st).
  { unfold st', connect. rewrite pressOK_devices.
    cbn [connectToDevice snd alert devices]. now apply flag_unlisted. }
  split; [exact Hd|]. split; [reflexivity|].
  unfold connected_count. now rewrite Hd.
Qed.

(** ** Forced connection with an empty query *)

(** X7.  With the empty query [forceConnect] neither scans nor makes a
    placeholder: the tape and the registry are untouched.  It raises the
    connection dialog for the first device with a non-empty name (or an
    empty id or address) and returns [true]; when there is none it
    returns [false], with the No Devices Found dialog if the list is
    empty and with no dialog at all otherwise. *)
Theorem forceConnect_empty_query (r : Rng) (st : State) :
  forceConnectToDevice "" r st
  = match find (matches "") (devices st) with
    | Some d => (true, alert (SystemConnectionRequired d) st, r)
    | None =>
        (false,
         if (List.length (devices st) =? 0)%nat then alert NoDevicesFound st else st,
         r)
    end
  /\ (forall d n, name d = Some n -> truthy n = true -> matches "" d = true)
  /\ devices (snd (fst (forceConnectToDevice "" r st))) = devices st.
Proof.
  assert (E : forceConnectToDevice "" r st
              = match find (matches "") (devices st) with
                | Some d => (true, alert (SystemConnectionRequired d) st, r)
                | None =>
                    (false,
                     if (List.length (devices st) =? 0)%nat
                     then alert NoDevicesFound st else st,
                     r)
                end).
  { unfold forceConnectToDevice. cbn [truthy].
    destruct (find (matches "") (devices st)); [reflexivity|].
    now destruct (List.length (devices st) =? 0)%nat. }
  split; [exact E|]. split.
  - intros d n Hn Ht. unfold matches. rewrite Hn, Ht.
    rewrite (toLowerCase_ascii "" eq_refl). cbn [lower_letters].
    now destruct (toLowerCase n).
  - rewrite E. destruct (find (matches "") (devices st)); [reflexivity|].
    now destruct (List.length (devices st) =? 0)%nat.
Qed.

(** ** Substrings *)

Lemma append_assoc (a b c : string) :
  ((a ++ b) ++ c = a ++ (b ++ c))%string.
Proof. induction a as [|x a IH]; cbn; [reflexivity | now rewrite IH]. Qed.

Lemma prefix_iff (p s : string) :
  String.prefix p s = true <-> exists b, s = (p ++ b)%string.
Proof.
  revert s. induction p as [|x p IH]; intros s.
  - split; [intros _; now exists s | intros _; now destruct s].
  - destruct s as [|y s]; cbn;
      [split; [discriminate | intros [b Hb]; discriminate]|].
    destruct (ascii_dec x y) as [->|Hne].
    + rewrite IH. split; intros [b Hb]; exists b; congruence.
    + split; [discriminate | intros [b Hb]; congruence].
Qed.

(** [s.includes(pat)] holds exactly when [pat] occurs in [s]. *)
Lemma includes_iff (s pat : string) :
  includes s pat = true <-> exists a b, s = (a ++ pat ++ b)%string.
Proof.
  induction s as [|x s IH]; cbn [includes]; rewrite orb_true_iff, prefix_iff.
  - split.
    + intros [[b Hb] | H]; [|discriminate]. now exists "", b.
    + intros (a & b & H). left. destruct a; [now exists b | discriminate].
  - rewrite IH. split.
    + intros [[b Hb] | (a & b & H)].
      * now exists "", b.
      * exists (String x a), b. cbn. now rewrite H.
    + intros (a & b & H). destruct a as [|y a].
      * left. now exists b.
      * right. cbn in H. exists a, b. congruence.
Qed.

Lemma includes_trans (s k k1 : string) :
  includes s k = true -> includes k k1 = true -> includes s k1 = true.
Proof.
  rewrite !includes_iff. intros (a & b & ->) (a' & b' & ->).
  exists (a ++ a')%string, (b' ++ b)%string.
  now rewrite !append_assoc.
Qed.

Lemma translate_loop_app (lowerMsg : string) (es es' : list (string * string)) (text : string) :
  translate_loop lowerMsg (es ++ es') text
  = translate_loop lowerMsg es (translate_loop lowerMsg es' text).
Proof.
  induction es as [|[k v] r IH]; [reflexivity|].
  cbn [app translate_loop]. now destruct (includes lowerMsg k).
Qed.

Lemma translate_loop_hit (lowerMsg k : string) (es : list (string * string)) :
  JsObject.has_key k es = true ->
  includes lowerMsg k = true ->
  forall t t', translate_loop lowerMsg es t = translate_loop lowerMsg es t'.
Proof.
  induction es as [|[k' v'] r IH]; [discriminate|].
  cbn [JsObject.has_key existsb fst translate_loop]. intros Hk Hi t t'.
  destruct (includes lowerMsg k') eqn:E; [reflexivity|].
  destruct (String.eqb k' k) eqn:Ek.
  - apply String.eqb_eq in Ek. congruence.
  - now apply IH.
Qed.

(** X8.  A phrase whose lower-cased English text contains a key the
    dictionary already holds, and is neither a key itself nor an array
    index, is shadowed: after adding it, every message is translated as
    before. *)
Theorem addPhrase_shadowed (english vietnamese k1 : string) (st : State) :
  english <> "" -> vietnamese <> "" ->
  JsObject.has_key (toLowerCase english) (vietnamesePhrases st) = false ->
  plain (toLowerCase english) = true ->
  JsObject.has_key k1 (vietnamesePhrases st) = true ->
  includes (toLowerCase english) k1 = true ->
  forall message,
    translate (vietnamesePhrases (setCustomVietnamesePhrase english vietnamese st)) message
    = translate (vietnamesePhrases st) message.
Proof.
  intros He Hv Hnew Hplain Hk1 Hin message.
  rewrite setCustomVietnamesePhrase_phrases. unfold accepted. cbn [fst snd].
  rewrite (truthy_true _ He), (truthy_true _ Hv). cbn [andb].
  unfold JsObject.set. rewrite Hnew.
  unfold plain in Hplain.
  destruct (JsObject.array_index (toLowerCase english)); [discriminate|].
  unfold translate, JsObject.entries. rewrite translate_loop_app.
  cbn [translate_loop].
  destruct (includes (toLowerCase message) (toLowerCase english)) eqn:E; [|reflexivity].
  apply (translate_loop_hit _ k1); [exact Hk1|].
  exact (includes_trans _ _ _ E Hin).
Qed.

(** ** The dictionary along the runs *)

Lemma lower_ascii_idem (c : ascii) : lower_ascii (lower_ascii c) = lower_ascii c.
Proof. destruct c as [[] [] [] [] [] [] [] []]; reflexivity. Qed.

Lemma toLowerCase_idem (s : string) : toLowerCase (toLowerCase s) = toLowerCase s.
Proof. apply toLowerCase_idempotent. Qed.

Lemma key_ok_lower (e : string) : truthy e = true -> key_ok (toLowerCase e) = true.
Proof.
  intros H. unfold key_ok.
  now rewrite toLowerCase_idem, String.eqb_refl, toLowerCase_truthy, H.
Qed.

Lemma has_key_In (k : string) (o : JsObject.t) :
  JsObject.has_key k o = true <-> In k (map fst o).
Proof.
  unfold JsObject.has_key. rewrite existsb_exists, in_map_iff.
  split; intros (e & H1 & H2); exists e.
  - apply String.eqb_eq in H2. tauto.
  - split; [tauto|]. apply String.eqb_eq. tauto.
Qed.

Lemma keys_overwrite (k v : string) (o : JsObject.t) :
  map fst (JsObject.overwrite k v o) = map fst o.
Proof.
  induction o as [|[k' v'] r IH]; [reflexivity|].
  cbn [JsObject.overwrite]. destruct (String.eqb k' k); cbn [map fst]; [reflexivity|].
  now rewrite IH.
Qed.

Lemma keys_insert_index_In (n : N) (k v x : string) (o : JsObject.t) :
  In x (map fst (JsObject.insert_index n k v o)) <-> x = k \/ In x (map fst o).
Proof.
  induction o as [|[k' v'] r IH]; cbn [JsObject.insert_index map fst In].
  - intuition.
  - destruct (JsObject.array_index k') as [n'|]; [destruct (n <? n')%N|];
      cbn [map fst In]; rewrite ?IH; intuition.
Qed.

Lemma keys_insert_index_NoDup (n : N) (k v : string) (o : JsObject.t) :
  ~ In k (map fst o) -> NoDup (map fst o) ->
  NoDup (map fst (JsObject.insert_index n k v o)).
Proof.
  induction o as [|[k' v'] r IH]; cbn [JsObject.insert_index map fst In]; intros Hk Hn.
  - repeat constructor. intros [].
  - apply NoDup_cons_iff in Hn. destruct Hn as [Hk' Hr].
    destruct (JsObject.array_index k') as [n'|]; [destruct (n <? n')%N|];
      cbn [map fst].
    + constructor; [exact Hk | now constructor].
    + constructor.
      * rewrite keys_insert_index_In. intros [-> | H]; tauto.
      * apply IH; tauto.
    + constructor; [exact Hk | now constructor].
Qed.

Lemma keys_set_In (k v x : string) (o : JsObject.t) :
  In x (map fst (JsObject.set k v o)) <-> x = k \/ In x (map fst o).
Proof.
  unfold JsObject.set. destruct (JsObject.has_key k o) eqn:E.
  - rewrite keys_overwrite. apply has_key_In in E.
    split; [tauto | intros [-> | H]; assumption].
  - destruct (JsObject.array_index k).
    + apply keys_insert_index_In.
    + rewrite map_app, in_app_iff. cbn. intuition.
Qed.

Lemma keys_set_NoDup (k v : string) (o : JsObject.t) :
  NoDup (map fst o) -> NoDup (map fst (JsObject.set k v o)).
Proof.
  intros Hn. unfold JsObject.set. destruct (JsObject.has_key k o) eqn:E.
  - now rewrite keys_overwrite.
  - assert (Hk : ~ In k (map fst o)).
    { intros H. apply has_key_In in H. congruence. }
    destruct (JsObject.array_index k).
    + now apply keys_insert_index_NoDup.
    + rewrite map_app. apply NoDup_app_iff. repeat split; try assumption.
      * repeat constructor. intros [].
      * intros a Ha [<- | []]. contradiction.
Qed.

Lemma keys_ok_In (o : JsObject.t) :
  keys_ok o = true <-> forall k, In k (map fst o) -> key_ok k = true.
Proof.
  unfold keys_ok. rewrite forallb_forall. split.
  - intros H k Hk. apply in_map_iff in Hk. destruct Hk as (e & <- & He). now apply H.
  - intros H e He. apply H. now apply in_map.
Qed.

(** What each operation does to the dictionary: only [addPhrase] writes it. *)
Lemma apply_op_phrases (engine : Engine) (o : Op) (a : Async) :
  vietnamesePhrases (store (apply_op engine o a))
  = match o with
    | OpAddPhrase e v => vietnamesePhrases (setCustomVietnamesePhrase e v (store a))
    | _ => vietnamesePhrases (store a)
    end.
Proof.
  destruct o as [b|r|d|d| | |q r|e v|b|e]; unfold apply_op, on_store; cbn [store];
    try reflexivity.
  - unfold initTts. now destruct engine.
  - unfold scanForDevices. now destruct (discover r).
  - unfold disconnectDevice. now destruct (connectedDevice (store a)).
  - unfold forceConnectToDevice.
    destruct (find (matches q) (devices (store a))); [reflexivity|].
    destruct (truthy q).
    + unfold scanForDevices. destruct (discover r) as [ds r1].
      destruct (List.length (devices (store a)) =? 0)%nat; [reflexivity|].
      destruct (generateRandomId r1) as [i r2].
      now destruct (generateRandomId r2).
    + now destruct (List.length (devices (store a)) =? 0)%nat.
  - unfold getAvailableLanguages.
    destruct engine; [destruct (snd (detectVoices b))|]; reflexivity.
  - destruct (step engine e a) as [a'|] eqn:E; [|reflexivity].
    destruct e as [snap message|i|i ok|i| | | |]; cbn [step] in E.
    + unfold speak_enter, speak_dispatch in E.
      destruct (connectedDevice snap); [destruct (isSpeaking snap)|];
        inversion E; reflexivity.
    + destruct (nth_error (tasks a) i) as [[m| |]|]; try discriminate.
      inversion E; reflexivity.
    + destruct (nth_error (tasks a) i) as [[m| |]|]; try discriminate.
      destruct ok; inversion E; reflexivity.
    + destruct (nth_error (tasks a) i) as [[m| |]|]; try discriminate.
      inversion E; reflexivity.
    + destruct engine; try discriminate. inversion E; reflexivity.
    + destruct engine; try discriminate. inversion E; reflexivity.
    + destruct engine; try discriminate. inversion E; reflexivity.
    + destruct engine; try discriminate. inversion E; reflexivity.
Qed.

Lemma key_ok_ascii (k : string) :
  is_ascii k && truthy k && String.eqb (lower_letters k) k = true -> key_ok k = true.
Proof.
  intros H. apply andb_true_iff in H. destruct H as [H H3].
  apply andb_true_iff in H. destruct H as [H1 H2].
  unfold key_ok. now rewrite (toLowerCase_ascii k H1), H2, H3.
Qed.

(** The built-in keys are ASCII, non-empty and in lower case. *)
Lemma default_keys_ok : keys_ok DEFAULT_VIETNAMESE_PHRASES = true.
Proof.
  unfold keys_ok.
  change DEFAULT_VIETNAMESE_PHRASES with (JsObject.entries DEFAULT_VIETNAMESE_PHRASES).
  rewrite default_phrases_entries.
  apply forallb_forall. intros e He. apply key_ok_ascii.
  revert e He. apply forallb_forall. vm_compute. reflexivity.
Qed.

(** X9.  In every state the hook can reach, every key of the phrase
    dictionary is non-empty and lower-cased, no key occurs twice, the
    array-index keys come first in ascending order, and each of the
    fifteen built-in keys is still present: phrases are added or
    overwritten, never removed. *)
Theorem dictionary_keys_invariant (engine : Engine) (ops : list Op) :
  let o := vietnamesePhrases (store (reach engine ops)) in
  keys_ok o = true
  /\ canonical o = true
  /\ NoDup (map fst o)
  /\ forall k, In k (map fst default_entries) -> JsObject.has_key k o = true.
Proof.
  unfold reach.
  set (I := fun o : JsObject.t =>
              keys_ok o = true /\ canonical o = true /\ NoDup (map fst o)
              /\ forall k, In k (map fst default_entries) -> JsObject.has_key k o = true).
  change (I (vietnamesePhrases
               (store (fold_left (fun a o => apply_op engine o a) ops
                         (at_rest initial_state))))).
  assert (H0 : I (vietnamesePhrases (store (at_rest initial_state)))).
  { unfold I. split; [exact default_keys_ok|]. split; [vm_compute; reflexivity|].
    split.
    - change (map fst (vietnamesePhrases (store (at_rest initial_state))))
        with (map fst default_entries).
      cbn. repeat constructor; cbn; intuition discriminate.
    - intros k Hk. apply has_key_In. exact Hk. }
  revert H0. generalize (at_rest initial_state).
  induction ops as [|o r IH]; intros a Ha; [exact Ha|].
  cbn [fold_left]. apply IH. rewrite apply_op_phrases.
  destruct o; try exact Ha.
  rewrite setCustomVietnamesePhrase_phrases.
  destruct (accepted (english, vietnamese)) eqn:A; [|exact Ha].
  destruct Ha as (H1 & H2 & H3 & H4). unfold I.
  unfold accepted in A. cbn [fst snd] in A. apply andb_true_iff in A.
  destruct A as [Ae _].
  split; [|split; [|split]].
  - apply keys_ok_In. intros k Hk. apply keys_set_In in Hk.
    destruct Hk as [-> | Hk]; [now apply key_ok_lower|].
    revert k Hk. now apply keys_ok_In.
  - now apply JsObjectFacts.canonical_set.
  - now apply keys_set_NoDup.
  - intros k Hk. apply has_key_In, keys_set_In. right.
    apply has_key_In. now apply H4.
Qed.

(** ** Languages *)

Lemma array_includes_iff (l : list string) (x : string) :
  array_includes l x = true <-> In x l.
Proof.
  unfold array_includes. rewrite existsb_exists. split.
  - intros (y & Hy & E). apply String.eqb_eq in E. now subst.
  - intros H. exists x. split; [exact H | apply String.eqb_refl].
Qed.

Lemma unique_In (l : list string) :
  forall seen x, In x (unique seen l) <-> In x l /\ ~ In x seen.
Proof.
  induction l as [|y r IH]; intros seen x; cbn [unique In]; [tauto|].
  destruct (existsb (String.eqb y) seen) eqn:E.
  - change (existsb (String.eqb y) seen) with (array_includes seen y) in E.
    apply array_includes_iff in E. rewrite IH.
    split; [tauto|]. intros [[<- | H] Hn]; tauto.
  - assert (Hy : ~ In y seen).
    { intros H. apply array_includes_iff in H. unfold array_includes in H. congruence. }
    cbn [In]. rewrite IH. cbn [In].
    destruct (string_dec y x) as [<- | Hne]; [tauto|]. tauto.
Qed.

Lemma unique_NoDup (l : list string) :
  forall seen, NoDup (unique seen l).
Proof.
  induction l as [|y r IH]; intros seen; cbn [unique]; [constructor|].
  destruct (existsb (String.eqb y) seen); [apply IH|].
  constructor; [|apply IH].
  rewrite unique_In. cbn [In]. tauto.
Qed.

Lemma voice_languages_In (voices : list (option Voice.t)) (l : string) :
  In l (voice_languages voices)
  <-> l <> "" /\ exists v, In (Some v) voices /\ Voice.language v = Some l.
Proof.
  unfold voice_languages. rewrite filter_In, in_map_iff. split.
  - intros ((v & Hl & Hv) & Ht). apply filter_In in Hv. destruct Hv as [Hv Hk].
    destruct v as [v|]; [|discriminate].
    destruct (Voice.language v) as [l'|] eqn:E; [|discriminate].
    subst l'. split; [intros ->; discriminate|]. now exists v.
  - intros (Hne & v & Hv & E). split; [|now apply truthy_true].
    exists (Some v). rewrite E. split; [reflexivity|].
    apply filter_In. split; [exact Hv|]. rewrite E. now apply truthy_true.
Qed.

(** X10.  The list [getAvailableLanguages] returns has no language
    twice and no empty language; on the native engine, every non-empty
    language of a voice that the query delivered is in it. *)
Theorem languages_distinct (engine : Engine) (b : VoicesBehaviour) (st : State) :
  let ls := fst (getAvailableLanguages engine b st) in
  NoDup ls
  /\ ~ In "" ls
  /\ (forall voices v l,
        snd (detectVoices b) = VoiceArray voices ->
        In (Some v) voices -> Voice.language v = Some l -> l <> "" ->
        In l (fst (getAvailableLanguages NativeTts b st))).
Proof.
  assert (Hfb : NoDup ["vi-VN"; "en-US"] /\ ~ In "" ["vi-VN"; "en-US"]).
  { split; [repeat constructor; cbn; intuition discriminate | cbn; intuition discriminate]. }
  split; [|split].
  - unfold getAvailableLanguages. destruct engine; [|apply Hfb].
    destruct (snd (detectVoices b)) as [|voices|]; try apply Hfb. cbn [fst].
    destruct (array_includes (unique [] (voice_languages voices)) "vi-VN") eqn:E;
      cbn [negb]; [apply unique_NoDup|].
    apply NoDup_app_iff. repeat split.
    + apply unique_NoDup.
    + repeat constructor. intros [].
    + intros a Ha [<- | []]. apply array_includes_iff in Ha. congruence.
  - unfold getAvailableLanguages. destruct engine; [|apply Hfb].
    destruct (snd (detectVoices b)) as [|voices|]; try apply Hfb. cbn [fst].
    assert (Hu : ~ In "" (unique [] (voice_languages voices))).
    { rewrite unique_In, voice_languages_In. tauto. }
    destruct (array_includes (unique [] (voice_languages voices)) "vi-VN");
      cbn [negb]; [exact Hu|].
    rewrite in_app_iff. cbn. intuition discriminate.
  - intros voices v l E Hv Hl Hne. unfold getAvailableLanguages. rewrite E. cbn [fst].
    assert (Hu : In l (unique [] (voice_languages voices))).
    { rewrite unique_In, voice_languages_In. split; [|tauto].
      split; [exact Hne | now exists v]. }
    destruct (array_includes (unique [] (voice_languages voices)) "vi-VN");
      cbn [negb]; [exact Hu|].
    apply in_or_app. now left.
Qed.

(** X11.  [initTts] keeps the languages found so far, in their order,
    and appends vi-VN exactly when it is missing; it adds no duplicate, a
    second run changes the list no more, and it touches neither the
    registry, the connection, the speaking flag nor the dictionary.  Its
    engine calls contain no speak and no stop. *)
Theorem initTts_languages (engine : Engine) (b b' : VoicesBehaviour) (st : State) :
  let st' := initTts engine b st in
  In "vi-VN" (availableLanguages st')
  /\ availableLanguages st'
     = availableLanguages st
       ++ (if array_includes (availableLanguages st) "vi-VN" then [] else ["vi-VN"])
  /\ (NoDup (availableLanguages st) -> NoDup (availableLanguages st'))
  /\ availableLanguages (initTts engine b' st') = availableLanguages st'
  /\ devices st' = devices st
  /\ connectedDevice st' = connectedDevice st
  /\ isSpeaking st' = isSpeaking st
  /\ vietnamesePhrases st' = vietnamesePhrases st
  /\ count is_speak_call (ttsCalls st') = count is_speak_call (ttsCalls st)
  /\ count is_stop_call (ttsCalls st') = count is_stop_call (ttsCalls st).
Proof.
  intros st'.
  assert (E : availableLanguages st'
              = availableLanguages st
                ++ (if array_includes (availableLanguages st) "vi-VN"
                    then [] else ["vi-VN"])).
  { unfold st', initTts.
    destruct engine; cbn [availableLanguages setAvailableLanguages tts];
      destruct (array_includes (availableLanguages st) "vi-VN");
      now rewrite ?app_nil_r. }
  assert (Hin : In "vi-VN" (availableLanguages st')).
  { rewrite E. destruct (array_includes (availableLanguages st) "vi-VN") eqn:Ei.
    - rewrite app_nil_r. now apply array_includes_iff.
    - apply in_or_app. right. now left. }
  split; [exact Hin|]. split; [exact E|]. split; [|split].
  - intros Hn. rewrite E.
    destruct (array_includes (availableLanguages st) "vi-VN") eqn:Ei.
    + now rewrite app_nil_r.
    + apply NoDup_app_iff. repeat split; try assumption.
      * repeat constructor. intros [].
      * intros a Ha [<- | []]. apply array_includes_iff in Ha. congruence.
  - apply array_includes_iff in Hin.
    unfold initTts at 1.
    destruct engine; cbn [availableLanguages setAvailableLanguages tts];
      now rewrite Hin.
  - unfold st', initTts, count.
    destruct engine;
      cbn [availableLanguages setAvailableLanguages tts devices connectedDevice
           isSpeaking vietnamesePhrases ttsCalls];
      rewrite ?filter_app; cbn [filter is_speak_call is_stop_call];
      rewrite ?app_nil_r; repeat split; reflexivity.
Qed.

(** ** Accounting of engine calls *)

Lemma count_app {A : Type} (p : A -> bool) (l l' : list A) :
  count p (l ++ l') = (count p l + count p l')%nat.
Proof. unfold count. now rewrite filter_app, length_app. Qed.

Lemma count_cons {A : Type} (p : A -> bool) (x : A) (l : list A) :
  count p (x :: l) = ((if p x then 1 else 0) + count p l)%nat.
Proof. unfold count. cbn [filter]. now destruct (p x). Qed.

Lemma count_remove_nth {A : Type} (p : A -> bool) (l : list A) :
  forall i t, nth_error l i = Some t ->
    count p l = (count p (remove_nth i l) + (if p t then 1 else 0))%nat.
Proof.
  unfold count.
  induction l as [|x r IH]; intros [|i] t H; cbn [nth_error] in H; try discriminate.
  - inversion H; subst. cbn [remove_nth filter].
    destruct (p t); cbn [List.length]; lia.
  - cbn [remove_nth filter]. specialize (IH i t H).
    destruct (p x); cbn [List.length]; lia.
Qed.

Lemma initTts_calls (engine : Engine) (b : VoicesBehaviour) (st : State) :
  count is_speak_call (ttsCalls (initTts engine b st)) = count is_speak_call (ttsCalls st)
  /\ count is_stop_call (ttsCalls (initTts engine b st)) = count is_stop_call (ttsCalls st).
Proof.
  unfold initTts, count.
  destruct engine; cbn [ttsCalls setAvailableLanguages tts];
    rewrite ?filter_app; cbn [filter is_speak_call is_stop_call];
    rewrite ?app_nil_r; split; reflexivity.
Qed.

Lemma getAvailableLanguages_calls (engine : Engine) (b : VoicesBehaviour) (st : State) :
  let st' := snd (getAvailableLanguages engine b st) in
  count is_speak_call (ttsCalls st') = count is_speak_call (ttsCalls st)
  /\ count is_stop_call (ttsCalls st') = count is_stop_call (ttsCalls st).
Proof.
  unfold getAvailableLanguages.
  destruct engine; [destruct (snd (detectVoices b))|];
    cbn [snd ttsCalls setAvailableLanguages tts]; rewrite ?count_app;
    split; try reflexivity; cbn; lia.
Qed.

(** What one operation adds to the two accounts. *)
Lemma apply_op_accounts (engine : Engine) (o : Op) (a : Async) :
  let a' := apply_op engine o a in
  (count is_speak_call (ttsCalls (store a')) + count is_stop_wait (tasks a')
   = count is_speak_call (ttsCalls (store a)) + count is_stop_wait (tasks a)
     + (if accepted_speak o then 1 else 0))%nat
  /\ (count is_stop_call (ttsCalls (store a'))
      = count is_stop_call (ttsCalls (store a))
        + (if interrupting_speak o then 1 else 0))%nat.
Proof.
  destruct o as [b|r|d|d| | |q r|e v|b|e];
    unfold apply_op, on_store; cbn [store tasks accepted_speak interrupting_speak].
  - destruct (initTts_calls engine b (setDevices (fun _ => MOCK_DEVICES) (store a)))
      as (H1 & H2).
    rewrite H1, H2. cbn [ttsCalls setDevices]. (unfold count; cbn; split; lia).
  - destruct (scanForDevices_frame r (store a)) as (_ & _ & _ & ->). (unfold count; cbn; split; lia).
  - cbn. (unfold count; cbn; split; lia).
  - cbn. (unfold count; cbn; split; lia).
  - unfold disconnectDevice. destruct (connectedDevice (store a)); cbn; (unfold count; cbn; split; lia).
  - cbn. (unfold count; cbn; split; lia).
  - destruct (forceConnectToDevice_frame q r (store a)) as (_ & _ & -> & _). (unfold count; cbn; split; lia).
  - unfold setCustomVietnamesePhrase.
    destruct (negb (truthy e) || negb (truthy v)); cbn [ttsCalls alert setPhrases]; (unfold count; cbn; split; lia).
  - destruct (getAvailableLanguages_calls engine b (store a)) as [-> ->]. (unfold count; cbn; split; lia).
  - destruct (step engine e a) as [a'|] eqn:E.
    + destruct e as [snap message|i|i ok|i| | | |]; cbn [step] in E.
      * unfold speak_enter, speak_dispatch in E.
        destruct (connectedDevice snap); [destruct (isSpeaking snap)|];
          inversion E; subst; cbn [store tasks ttsCalls tts alert setIsSpeaking];
          rewrite ?count_app; cbn; (unfold count; cbn; split; lia).
      * destruct (nth_error (tasks a) i) as [[m| |]|] eqn:N; try discriminate.
        inversion E; subst. unfold speak_dispatch.
        cbn [store tasks ttsCalls tts setIsSpeaking].
        rewrite !count_app, (count_remove_nth is_stop_wait _ _ _ N). cbn. (unfold count; cbn; split; lia).
      * destruct (nth_error (tasks a) i) as [[m| |]|] eqn:N; try discriminate.
        destruct ok; inversion E; subst;
          cbn [store tasks ttsCalls alert setIsSpeaking speak_settle];
          rewrite ?count_app, (count_remove_nth is_stop_wait _ _ _ N); cbn; (unfold count; cbn; split; lia).
      * destruct (nth_error (tasks a) i) as [[m| |]|] eqn:N; try discriminate.
        inversion E; subst. cbn [store tasks ttsCalls setIsSpeaking].
        rewrite (count_remove_nth is_stop_wait _ _ _ N). cbn. (unfold count; cbn; split; lia).
      * destruct engine; try discriminate. inversion E; subst. cbn. (unfold count; cbn; split; lia).
      * destruct engine; try discriminate. inversion E; subst. cbn. (unfold count; cbn; split; lia).
      * destruct engine; try discriminate. inversion E; subst. cbn. (unfold count; cbn; split; lia).
      * destruct engine; try discriminate. inversion E; subst. cbn. (unfold count; cbn; split; lia).
    + destruct e as [snap message|i|i ok|i| | | |]; cbn [step] in E;
        try discriminate; cbn; try ((unfold count; cbn; split; lia)).
      destruct (speak_enter snap message (store a)); discriminate E.
Qed.

(** X12.  Along every run, each [speak] call that passes the device
    guard accounts for exactly one engine [speak]: the engine has been
    asked to speak once for every such call, except those still waiting
    for their [stop] to settle.  The engine has been asked to stop once
    for every such call made from a render that showed speech in progress,
    and never otherwise. *)
Theorem speak_accounting (engine : Engine) (ops : list Op) :
  let a := reach engine ops in
  (count is_speak_call (ttsCalls (store a)) + count is_stop_wait (tasks a)
   = count accepted_speak ops)%nat
  /\ count is_stop_call (ttsCalls (store a)) = count interrupting_speak ops.
Proof.
  unfold reach.
  assert (G : forall a0,
    let a := fold_left (fun a o => apply_op engine o a) ops a0 in
    (count is_speak_call (ttsCalls (store a)) + count is_stop_wait (tasks a)
     = count is_speak_call (ttsCalls (store a0)) + count is_stop_wait (tasks a0)
       + count accepted_speak ops)%nat
    /\ (count is_stop_call (ttsCalls (store a))
        = count is_stop_call (ttsCalls (store a0)) + count interrupting_speak ops)%nat).
  { induction ops as [|o r IH]; intros a0; cbn [fold_left].
    - unfold count. cbn. lia.
    - destruct (IH (apply_op engine o a0)) as [H1 H2].
      destruct (apply_op_accounts engine o a0) as [H3 H4].
      cbn zeta in *. rewrite H1, H2, H3, H4.
      rewrite (count_cons accepted_speak), (count_cons interrupting_speak). lia. }
  destruct (G (at_rest initial_state)) as [H1 H2]. cbn zeta in *.
  rewrite H1, H2. cbn. lia.
Qed.

(** ** The notification hook *)

Lemma speak_through_no_device (snap : State) (ok : bool) (m : string) (a : Async) :
  connectedDevice snap = None ->
  speak_through snap ok m a = mkAsync (alert NoDeviceConnected (store a)) (tasks a) (uttering a).
Proof.
  intros H. unfold speak_through, speak_enter. now rewrite H.
Qed.

Lemma initTts_alerts (engine : Engine) (b : VoicesBehaviour) (st : State) :
  alerts (initTts engine b st) = alerts st.
Proof. unfold initTts. now destruct engine. Qed.

Lemma Forall_remove_nth {A : Type} (P : A -> Prop) (l : list A) :
  forall i, Forall P l -> Forall P (remove_nth i l).
Proof.
  induction l as [|x r IH]; intros i H; [destruct i; constructor|].
  inversion H; subst. destruct i; cbn [remove_nth]; [assumption|].
  constructor; [assumption | now apply IH].
Qed.

Lemma announce_silent (snap : State) (ok : bool) (amount sender : string)
    (h : NotificationHook) :
  connectedDevice snap = None -> silent h -> silent (announce snap ok amount sender h).
Proof.
  intros Hs (H1 & H2 & H3 & H4 & H5 & H6). unfold silent, announce.
  cbn [bluetooth scheduled payments].
  rewrite (speak_through_no_device _ _ _ _ Hs).
  cbn [store tasks connectedDevice alert ttsCalls alerts].
  rewrite count_app, length_app, H6.
  repeat split; assumption.
Qed.

Lemma requestPermissions_frame (p : Platform) (res : PermissionResult) (h : NotificationHook) :
  let h' := snd (requestPermissions p res h) in
  bluetooth h' = bluetooth h /\ scheduled h' = scheduled h /\ payments h' = payments h
  /\ appState h' = appState h.
Proof.
  unfold requestPermissions, isSimulationMode.
  destruct (os p); [destruct (33 <=? version p)%Z; [destruct res|]| |];
    cbn; repeat split.
Qed.

Lemma apply_nop_silent (engine : Engine) (o : NOp) (h : NotificationHook) :
  silent h -> silent (apply_nop engine o h).
Proof.
  intros Hs. pose proof Hs as (H1 & H2 & H3 & H4 & H5 & H6).
  destruct o as [b|p res| |throws|r ok|n ok|next r|i r ok|e]; cbn [apply_nop].
  - unfold silent, on_bluetooth, apply_op, on_store.
    cbn [bluetooth scheduled payments store tasks].
    destruct (initTts_frame engine b (setDevices (fun _ => MOCK_DEVICES) (store (bluetooth h))))
      as (F1 & _ & _).
    destruct (initTts_calls engine b (setDevices (fun _ => MOCK_DEVICES) (store (bluetooth h))))
      as (F2 & F3).
    rewrite F1, F2, F3, initTts_alerts.
    repeat split; assumption.
  - destruct (requestPermissions_frame p res h) as (F1 & F2 & F3 & _).
    unfold silent. rewrite F1, F2, F3. exact Hs.
  - exact Hs.
  - unfold pressOpenSettings. destruct throws; exact Hs.
  - unfold simulatePaymentNotification.
    destruct (pick amounts r) as [amount r1].
    destruct (pick senders r1) as [sender r2]. cbn [fst].
    now apply announce_silent.
  - unfold processNotification.
    destruct (isMoMoNotification n && isPaymentNotification n); [|exact Hs].
    destruct n as [n'|]; [|exact Hs].
    destruct (text n'); [|exact Hs].
    now apply announce_silent.
  - unfold handleAppStateChange.
    destruct (was_away (appState h) && match next with Active => true | _ => false end
              && hasPermission h && demoMode h).
    + unfold Math_random. cbn [fst].
      destruct (negb (Qle_bool (tape r (pos r)) (7 # 10)));
        unfold silent; cbn [bluetooth scheduled payments];
        repeat split; try assumption.
      apply Forall_app. split; [assumption|]. now constructor.
    + exact Hs.
  - destruct (nth_error (scheduled h) i) as [snap|] eqn:E; [|exact Hs].
    unfold simulatePaymentNotification.
    destruct (pick amounts r) as [amount r1].
    destruct (pick senders r1) as [sender r2]. cbn [fst].
    apply announce_silent.
    + rewrite Forall_forall in H2. apply H2. eapply nth_error_In. exact E.
    + unfold silent. cbn [bluetooth scheduled payments].
      repeat split; try assumption. now apply Forall_remove_nth.
  - destruct e as [snap message|j|j ok|j| | | |]; try exact Hs;
      unfold on_bluetooth, apply_op; cbn [step]; rewrite ?H3;
      try (destruct j; cbn [nth_error]; destruct h as [? ? ? [? ? ?] ? ? ?]; exact Hs);
      destruct engine;
      try (destruct h as [? ? ? [? ? ?] ? ? ?]; exact Hs);
      unfold silent; cbn [bluetooth scheduled payments store tasks
                          connectedDevice ttsCalls alerts setIsSpeaking];
      repeat split; assumption.
Qed.

(** X13.  The notification hook creates a Bluetooth hook of its own and
    uses nothing of it but [speak]: whatever happens to the notification
    hook, that instance has no connected device, so every announcement,
    simulated or read from a notification, ends in the No Device
    Connected dialog.  The engine is never asked to speak or to stop,
    while each payment is still reported to [onPaymentReceived]. *)
Theorem notification_never_spoken (engine : Engine) (current : AppStateStatus)
    (ops : list NOp) :
  let h := notification_reach engine current ops in
  connectedDevice (store (bluetooth h)) = None
  /\ count is_speak_call (ttsCalls (store (bluetooth h))) = 0%nat
  /\ count is_stop_call (ttsCalls (store (bluetooth h))) = 0%nat
  /\ count is_no_device_alert (alerts (store (bluetooth h))) = List.length (payments h).
Proof.
  assert (H : silent (notification_reach engine current ops)).
  { unfold notification_reach.
    assert (H0 : silent (notification_start current)).
    { unfold silent. cbn. repeat split; constructor. }
    revert H0. generalize (notification_start current).
    induction ops as [|o r IH]; intros h Hh; [exact Hh|].
    cbn [fold_left]. apply IH. now apply apply_nop_silent. }
  destruct H as (H1 & _ & _ & H4 & H5 & H6). repeat split; assumption.
Qed.

(** X14.  [requestPermissions] returns [false] exactly when Android 13
    or later answers the permission request with something other than
    granted; then only the Notification Permission Required dialog is
    added and the permission and the mode stay as they were.  In every
    other case (a request that raises included) it returns [true] with
    the permission set, raising at most one dialog, and off Android it
    also sets demo mode.  The Simulation Mode
    dialog is never raised. *)
Theorem requestPermissions_outcome (p : Platform) (res : PermissionResult)
    (h : NotificationHook) :
  let b := fst (requestPermissions p res h) in
  let h' := snd (requestPermissions p res h) in
  (b = false <->
     os p = Android /\ (33 <= version p)%Z /\ (res = Denied \/ res = NeverAskAgain))
  /\ (b = false ->
      permissionDialogs h' = permissionDialogs h ++ [NotificationPermissionRequired]
      /\ hasPermission h' = hasPermission h /\ demoMode h' = demoMode h)
  /\ (b = true ->
      hasPermission h' = true
      /\ (permissionDialogs h' = permissionDialogs h
          \/ permissionDialogs h' = permissionDialogs h ++ [NotificationAccessRequired]
          \/ permissionDialogs h' = permissionDialogs h ++ [IOSLimitation]))
  /\ (os p <> Android -> b = true /\ demoMode h' = true)
  /\ bluetooth h' = bluetooth h
  /\ payments h' = payments h.
Proof.
  unfold requestPermissions, isSimulationMode.
  destruct (os p) eqn:Eo.
  - destruct (Z.leb_spec 33 (version p)) as [Hv | Hv].
    + destruct res; cbn; repeat split; try discriminate; try tauto; try congruence;
        try (intros (_ & _ & [H | H]); discriminate H); auto.
    + cbn. repeat split; try discriminate; try tauto; try congruence; auto.
      intros (_ & Hge & _). lia.
  - cbn. repeat split; try discriminate; try tauto; try congruence; auto.
    intros (H & _). discriminate H.
  - cbn. repeat split; try discriminate; try tauto; try congruence; auto.
    intros (H & _). discriminate H.
Qed.

Lemma pick_spec (l : list string) (r : Rng) :
  l <> [] -> tape_ok r ->
  exists s, In s l /\ pick l r = (s, mkRng (tape r) (S (pos r))).
Proof.
  intros Hl Hr. unfold pick, Math_random.
  destruct (Hr (pos r)) as [H0 H1].
  assert (Hk : (0 < Z.of_nat (List.length l))%Z).
  { destruct l; [congruence | cbn [List.length]; lia]. }
  pose proof (floor_scaled_bound _ _ Hk H0 H1) as Hz.
  set (z := Qfloor (tape r (pos r) * inject_Z (Z.of_nat (List.length l)))) in *.
  clearbody z.
  destruct (Z.ltb_spec z 0) as [Hneg | _]; [lia|].
  destruct (nth_error l (Z.to_nat z)) as [s|] eqn:E.
  - exists s. split; [eapply nth_error_In; exact E | reflexivity].
  - apply nth_error_None in E. lia.
Qed.

(** X15.  With draws in [0, 1), [simulatePaymentNotification] consumes
    two draws, takes the amount from the five amounts and the sender from
    the five senders (never an index out of range), announces "You have
    received AMOUNT VND from SENDER" and reports exactly that payment. *)
Theorem simulatePayment_picks (snap : State) (r : Rng) (ok : bool) (h : NotificationHook) :
  tape_ok r ->
  exists amount sender,
    In amount amounts /\ In sender senders
    /\ simulatePaymentNotification snap r ok h
       = (announce snap ok amount sender h, mkRng (tape r) (2 + pos r))
    /\ payments (fst (simulatePaymentNotification snap r ok h))
       = payments h ++ [(amount, sender)]
    /\ bluetooth (fst (simulatePaymentNotification snap r ok h))
       = speak_through snap ok (announcement amount sender) (bluetooth h).
Proof.
  intros Hr. unfold simulatePaymentNotification.
  destruct (pick_spec amounts r ltac:(discriminate) Hr) as (amount & Ha & Ea).
  rewrite Ea.
  destruct (pick_spec senders (mkRng (tape r) (S (pos r))) ltac:(discriminate) Hr)
    as (sender & Hs & Es).
  rewrite Es. exists amount, sender. repeat split; assumption.
Qed.

(** ** The screen *)

Lemma trims_to_empty_truthy (s : string) : trims_to_empty s = false -> truthy s = true.
Proof. destruct s; [discriminate | reflexivity]. Qed.

(** X16.  Adding a phrase from the screen: when either field is blank
    after trimming, the Missing Information dialog is raised and nothing
    else changes; otherwise the phrase is stored under the lower-cased
    English field as typed (not trimmed) and both fields are cleared.
    Either way the hook's own Input Error dialog is not raised. *)
Theorem handleAddPhrase_screen (s : Screen) :
  let s' := handleAddPhrase s in
  (trims_to_empty (englishPhrase s) = true \/ trims_to_empty (vietnamesePhrase s) = true ->
     s' = screen_dialog MissingInformation s)
  /\ (trims_to_empty (englishPhrase s) = false /\ trims_to_empty (vietnamesePhrase s) = false ->
      vietnamesePhrases (store (hook s'))
      = JsObject.set (toLowerCase (englishPhrase s)) (vietnamesePhrase s)
                     (vietnamesePhrases (store (hook s)))
      /\ alerts (store (hook s'))
         = alerts (store (hook s)) ++ [PhraseAdded (englishPhrase s) (vietnamesePhrase s)]
      /\ englishPhrase s' = "" /\ vietnamesePhrase s' = ""
      /\ screenDialogs s' = screenDialogs s)
  /\ count is_input_error (alerts (store (hook s')))
     = count is_input_error (alerts (store (hook s))).
Proof.
  unfold handleAddPhrase. split; [|split].
  - intros [H | H]; rewrite H; [reflexivity | now rewrite orb_true_r].
  - intros [He Hv]. rewrite He, Hv. cbn [orb hook store on_store].
    unfold setCustomVietnamesePhrase.
    rewrite (trims_to_empty_truthy _ He), (trims_to_empty_truthy _ Hv).
    cbn. repeat split.
  - destruct (trims_to_empty (englishPhrase s)) eqn:He; [reflexivity|].
    destruct (trims_to_empty (vietnamesePhrase s)) eqn:Hv; [reflexivity|].
    cbn [orb hook store on_store].
    unfold setCustomVietnamesePhrase.
    rewrite (trims_to_empty_truthy _ He), (trims_to_empty_truthy _ Hv).
    cbn [negb orb alerts alert setPhrases]. rewrite count_app.
    unfold count at 2. cbn. lia.
Qed.

(** X17.  Speaking from the screen: a message that is blank after
    trimming raises the Empty Message dialog and never reaches the hook;
    with no connected device the engine is not called; with a connected
    device the engine is asked to speak the translated message once,
    after a [stop] exactly when speech was in progress. *)
Theorem handleSpeak_calls (ok : bool) (s : Screen) :
  let s' := handleSpeak ok s in
  let st := store (hook s) in
  let spoken := CallSpeak (translate (vietnamesePhrases st) (message s)) in
  (trims_to_empty (message s) = true -> s' = screen_dialog EmptyMessage s)
  /\ (trims_to_empty (message s) = false ->
      ttsCalls (store (hook s'))
      = ttsCalls st
        ++ match connectedDevice st with
           | None => []
           | Some _ => if isSpeaking st then [CallStop; spoken] else [spoken]
           end).
Proof.
  unfold handleSpeak. split.
  - intros H. now rewrite H.
  - intros H. rewrite H. cbn [hook].
    unfold speak_through, speak_enter, speak_dispatch, speak_settle.
    destruct (connectedDevice (store (hook s))).
    + destruct (isSpeaking (store (hook s))); destruct ok; cbn;
        rewrite <- ?app_assoc; reflexivity.
    + cbn. now rewrite app_nil_r.
Qed.

Lemma count_map {A B : Type} (p : B -> bool) (f : A -> B) (l : list A) :
  count p (map f l) = count (fun x => p (f x)) l.
Proof.
  unfold count. induction l as [|x r IH]; [reflexivity|].
  cbn [map filter]. destruct (p (f x)); cbn [List.length]; now rewrite IH.
Qed.

Lemma count_key (k : string) (l : list string) :
  NoDup l ->
  (count (String.eqb k) l <= 1)%nat
  /\ (In k l -> count (String.eqb k) l = 1%nat).
Proof.
  unfold count. induction l as [|x r IH]; intros Hn.
  - split; [cbn; lia | intros []].
  - apply NoDup_cons_iff in Hn. destruct Hn as [Hx Hr].
    destruct (IH Hr) as [IH1 IH2]. cbn [filter].
    destruct (String.eqb k x) eqn:E.
    + apply String.eqb_eq in E. subst x.
      assert (Hz : filter (String.eqb k) r = []).
      { clear - Hx. induction r as [|y r IH]; [reflexivity|].
        cbn [filter]. destruct (String.eqb k y) eqn:E.
        - apply String.eqb_eq in E. subst y. elim Hx. now left.
        - apply IH. intros H. apply Hx. now right. }
      rewrite Hz. cbn. split; [lia | reflexivity].
    + split; [exact IH1|]. intros [H | H]; [|now apply IH2].
      apply String.eqb_neq in E. congruence.
Qed.

Lemma getDeviceId_nonempty (d : BluetoothDevice) : truthy (getDeviceId d) = true.
Proof.
  unfold getDeviceId. destruct (truthy (id d)) eqn:E; [exact E|].
  destruct (address d) as [a|]; [|reflexivity].
  destruct (truthy a) eqn:Ea; [exact Ea | reflexivity].
Qed.

(** X18.  The key the screen gives a device is never empty.  When the
    keys of the listed devices are pairwise different, the screen shows
    the Connected badge on at most one of them, and after [connect(D)] of
    a listed device on exactly one, whatever flags the registry holds. *)
Theorem connected_badge_unique (d : BluetoothDevice) (st : State) :
  NoDup (map getDeviceId (devices st)) ->
  truthy (getDeviceId d) = true
  /\ (count (shows_connected st) (devices st) <= 1)%nat
  /\ (In (getDeviceId d) (map getDeviceId (devices st)) ->
      count (shows_connected (connect d st)) (devices (connect d st)) = 1%nat).
Proof.
  intros Hn. split; [apply getDeviceId_nonempty|]. split.
  - unfold shows_connected. destruct (connectedDevice st) as [c|].
    + rewrite <- (count_map (String.eqb (getDeviceId c)) getDeviceId).
      now apply count_key.
    + unfold count. clear Hn.
      induction (devices st); [cbn; lia | cbn [filter]; assumption].
  - intros Hi. unfold connect. rewrite pressOK_devices.
    cbn [connectToDevice snd alert devices].
    unfold shows_connected, pressOK. cbn [connectedDevice setDevices setConnectedDevice].
    rewrite count_map.
    transitivity (count (String.eqb (getDeviceId d)) (map getDeviceId (devices st))).
    + rewrite count_map. unfold count. f_equal. apply filter_ext. intros x.
      now destruct (String.eqb (id x) (id d)).
    + now apply count_key.
Qed.

(** ** Reading a payment back from its announcement *)

Lemma match_sender_skip (c : ascii) (r : string) :
  not_f c = true -> match_sender (String c r) = match_sender r.
Proof.
  intros H. cbn [match_sender]. unfold sender_at. cbn [prefix_ci].
  unfold not_f in H. change (lower_ascii "f") with "f"%char.
  destruct (Ascii.eqb (lower_ascii c) "f"); [discriminate | reflexivity].
Qed.

Lemma match_sender_skip_all (a r : string) :
  all_chars not_f a = true -> match_sender (a ++ r) = match_sender r.
Proof.
  induction a as [|c a IH]; intros H; [reflexivity|].
  cbn [all_chars] in H. apply andb_true_iff in H. destruct H as [Hc Ha].
  cbn [String.append]. rewrite match_sender_skip by exact Hc. now apply IH.
Qed.

Lemma match_sender_hit (s w : string) :
  sender_at s = Some w -> match_sender s = Some w.
Proof. intros H. destruct s; cbn [match_sender]; now rewrite H. Qed.

Lemma match_sender_announced (amount sender : string) :
  all_chars not_f amount = true ->
  truthy (take_non_white sender) = true ->
  match_sender (announcement amount sender) = Some (take_non_white sender).
Proof.
  intros Ha Hs. unfold announcement.
  cbn [String.append].
  repeat (rewrite match_sender_skip by reflexivity).
  rewrite match_sender_skip_all by exact Ha.
  repeat (rewrite match_sender_skip by reflexivity).
  apply match_sender_hit.
  unfold sender_at.
  change (prefix_ci "from " (String "f" (String "r" (String "o" (String "m"
            (String " " sender))))))
    with (Some sender).
  cbv beta iota zeta. now rewrite Hs.
Qed.

(** X19.  Read back from an announcement, the sender is the first word
    of the announced sender: "You have received A VND from S" gives the
    longest head of S without white space, when that head is not empty
    and A contains no letter f. *)
Theorem extractSender_roundtrip (amount sender : string) :
  all_chars not_f amount = true ->
  truthy (take_non_white sender) = true ->
  extractSender (announcement amount sender) = take_non_white sender.
Proof.
  intros Ha Hs. unfold extractSender.
  rewrite (match_sender_announced amount sender Ha Hs).
  reflexivity.
Qed.

Lemma length_append (a b : string) :
  String.length (a ++ b) = (String.length a + String.length b)%nat.
Proof. induction a as [|c a IH]; cbn; [reflexivity | now rewrite IH]. Qed.

Lemma append_nil_r (a : string) : (a ++ "")%string = a.
Proof. induction a as [|c a IH]; cbn; [reflexivity | now rewrite IH]. Qed.

Lemma amount_at_nondigit (c : ascii) (r : string) :
  is_digit c = false -> amount_at (String c r) = None.
Proof.
  intros H. unfold amount_at, alts_digits.
  cbn [flat_map digits_exact]. rewrite H. reflexivity.
Qed.

Lemma match_amount_skip (c : ascii) (r : string) :
  is_digit c = false -> match_amount (String c r) = match_amount r.
Proof.
  intros H. cbn [match_amount]. now rewrite (amount_at_nondigit c r H).
Qed.

Lemma match_amount_hit (s a : string) :
  amount_at s = Some a -> match_amount s = Some a.
Proof. intros H. destruct s; cbn [match_amount]; now rewrite H. Qed.

Lemma digits_exact_app (d rest : string) :
  all_chars is_digit d = true ->
  digits_exact (String.length d) (d ++ rest) = Some (d, rest).
Proof.
  induction d as [|c d IH]; intros H; [reflexivity|].
  cbn [all_chars] in H. apply andb_true_iff in H. destruct H as [Hc Hd].
  cbn [String.length String.append digits_exact]. now rewrite Hc, IH.
Qed.

Lemma digits_exact_stop (d rest : string) :
  all_chars is_digit d = true -> digit_run rest = 0%nat ->
  forall n, (String.length d < n)%nat -> digits_exact n (d ++ rest) = None.
Proof.
  intros Hd Hr. induction d as [|c d IH]; intros n Hn.
  - destruct n as [|n]; [lia|]. cbn [String.append digits_exact].
    destruct rest as [|c r]; [reflexivity|].
    cbn [digit_run] in Hr. destruct (is_digit c); [discriminate | reflexivity].
  - cbn [all_chars] in Hd. apply andb_true_iff in Hd. destruct Hd as [Hc Hd].
    destruct n as [|n]; [lia|]. cbn [String.length] in Hn.
    cbn [String.append digits_exact]. rewrite Hc, (IH Hd n) by lia. reflexivity.
Qed.

Lemma alts_digits_head (head rest : string) :
  leading_ok head = true -> digit_run rest = 0%nat ->
  exists tl, alts_digits (head ++ rest) = (head, rest) :: tl.
Proof.
  intros H Hr. unfold leading_ok in H.
  apply andb_true_iff in H. destruct H as [H H3].
  apply andb_true_iff in H. destruct H as [Hd H1].
  apply Nat.leb_le in H1, H3.
  unfold alts_digits. cbn [flat_map].
  assert (Hc : String.length head = 1%nat \/ String.length head = 2%nat
               \/ String.length head = 3%nat) by lia.
  pose proof (digits_exact_app head rest Hd) as Ea.
  destruct Hc as [Hc | [Hc | Hc]]; rewrite Hc in Ea.
  - rewrite (digits_exact_stop head rest Hd Hr 3), (digits_exact_stop head rest Hd Hr 2) by lia.
    rewrite Ea. eexists. reflexivity.
  - rewrite (digits_exact_stop head rest Hd Hr 3) by lia.
    rewrite Ea. eexists. reflexivity.
  - rewrite Ea. eexists. reflexivity.
Qed.

Lemma alts_groups_head (groups : list string) :
  forall n r,
    forallb group_ok groups = true -> (List.length groups <= n)%nat ->
    exists tl,
      alts_groups n (grouped groups ++ String " " r) = (grouped groups, String " " r) :: tl.
Proof.
  induction groups as [|g gs IH]; intros n r H Hn.
  - cbn [grouped String.append].
    destruct n; cbn [alts_groups]; eexists; reflexivity.
  - cbn [forallb] in H. apply andb_true_iff in H. destruct H as [Hg Hgs].
    unfold group_ok in Hg. apply andb_true_iff in Hg. destruct Hg as [Hd Hl].
    apply Nat.eqb_eq in Hl.
    destruct n as [|n]; [cbn in Hn; lia|]. cbn [List.length] in Hn.
    cbn [grouped String.append alts_groups].
    change (Ascii.eqb "," ",") with true. cbv iota.
    rewrite append_assoc.
    pose proof (digits_exact_app g (grouped gs ++ String " " r) Hd) as Eg.
    rewrite Hl in Eg. rewrite Eg.
    destruct (IH n r Hgs ltac:(lia)) as (tl & E). rewrite E.
    cbn [map app fst snd]. eexists. reflexivity.
Qed.

Lemma grouped_length (groups : list string) (r : string) :
  (List.length groups <= String.length (grouped groups ++ r))%nat.
Proof.
  induction groups as [|g gs IH]; [cbn; lia|].
  cbn [grouped String.append String.length List.length].
  rewrite append_assoc, length_append. lia.
Qed.

Lemma amount_at_announced (head : string) (groups : list string) (sender : string) :
  leading_ok head = true -> forallb group_ok groups = true ->
  amount_at (head ++ grouped groups ++ " VND from " ++ sender)
  = Some (head ++ grouped groups)%string.
Proof.
  intros Hh Hg. unfold amount_at.
  assert (Hr : digit_run (grouped groups ++ " VND from " ++ sender) = 0%nat)
    by (destruct groups; reflexivity).
  destruct (alts_digits_head head _ Hh Hr) as (tl1 & E1). rewrite E1.
  cbn [flat_map fst snd].
  destruct (alts_groups_head groups
              (String.length (grouped groups ++ " VND from " ++ sender))
              ("VND from " ++ sender) Hg (grouped_length groups _)) as (tl2 & E2).
  change (" VND from " ++ sender)%string with (String " " ("VND from " ++ sender)) in *.
  rewrite E2. cbn [flat_map map app fst snd alts_fraction].
  change (Ascii.eqb " " ".") with false. cbv iota.
  cbn [map app fst snd find].
  change (currency_follows (String " " ("VND from " ++ sender))) with true.
  cbv iota. cbn [option_map fst]. now rewrite append_nil_r.
Qed.

Lemma match_amount_announced (head : string) (groups : list string) (sender : string) :
  leading_ok head = true ->
  forallb group_ok groups = true ->
  match_amount (announcement (head ++ grouped groups) sender)
  = Some (head ++ grouped groups)%string.
Proof.
  intros Hh Hg. unfold announcement.
  cbn [String.append].
  repeat (rewrite match_amount_skip by reflexivity).
  rewrite append_assoc.
  pose proof (match_amount_hit _ _ (amount_at_announced head groups sender Hh Hg)) as E.
  cbn [String.append] in E. exact E.
Qed.

(** X20.  Read back from an announcement, the amount is the announced
    amount, when that is written as one to three digits followed by
    groups of a comma and three digits: "You have received A VND from S"
    gives A. *)
Theorem extractAmount_roundtrip (head : string) (groups : list string) (sender : string) :
  leading_ok head = true ->
  forallb group_ok groups = true ->
  extractAmount (announcement (head ++ grouped groups) sender)
  = (head ++ grouped groups)%string.
Proof.
  intros Hh Hg. unfold extractAmount.
  rewrite (match_amount_announced head groups sender Hh Hg).
  reflexivity.
Qed.

Lemma digit_is_plain (c : ascii) :
  is_digit c = true ->
  Ascii.eqb c "," = false /\ Ascii.eqb c "." = false /\ Ascii.eqb c " " = false
  /\ Ascii.eqb (lower_ascii c) (lower_ascii "V") = false /\ not_f c = true.
Proof.
  destruct c as [[] [] [] [] [] [] [] []]; intros H; try discriminate H;
    repeat split; reflexivity.
Qed.

Lemma amount_at_four_digits (a b c d : ascii) (r : string) :
  is_digit a = true -> is_digit b = true -> is_digit c = true -> is_digit d = true ->
  amount_at (String a (String b (String c (String d r)))) = None.
Proof.
  intros Ha Hb Hc Hd.
  destruct (digit_is_plain b Hb) as (B1 & B2 & B3 & B4 & _).
  destruct (digit_is_plain c Hc) as (C1 & C2 & C3 & C4 & _).
  destruct (digit_is_plain d Hd) as (D1 & D2 & D3 & D4 & _).
  unfold amount_at, alts_digits.
  cbn [flat_map digits_exact]. rewrite Ha, Hb, Hc.
  cbn [app flat_map fst snd String.length alts_groups].
  rewrite B1, C1, D1.
  cbn [flat_map map app fst snd alts_fraction].
  rewrite B2, C2, D2.
  cbn [map app fst snd find currency_follows prefix_ci].
  rewrite B3, C3, D3, B4, C4, D4. reflexivity.
Qed.

Lemma match_amount_cut (p t rest : string) :
  all_chars is_digit p = true -> group_ok t = true ->
  match_amount (p ++ t ++ rest) = match_amount (t ++ rest).
Proof.
  intros Hp Ht. unfold group_ok in Ht. apply andb_true_iff in Ht.
  destruct Ht as [Hd Hl]. apply Nat.eqb_eq in Hl.
  destruct t as [|a [|b [|c [|x t]]]]; try discriminate Hl.
  cbn [all_chars] in Hd.
  apply andb_true_iff in Hd. destruct Hd as [Ha Hd].
  apply andb_true_iff in Hd. destruct Hd as [Hb Hd].
  apply andb_true_iff in Hd. destruct Hd as [Hc _].
  induction p as [|y p IH]; [reflexivity|].
  cbn [all_chars] in Hp. apply andb_true_iff in Hp. destruct Hp as [Hy Hp].
  specialize (IH Hp). cbn [String.append] in *.
  cbn [match_amount].
  assert (E : amount_at (String y (p ++ String a (String b (String c rest)))) = None).
  { destruct p as [|p1 [|p2 [|p3 p]]]; cbn [String.append];
      cbn [all_chars] in Hp;
      repeat match goal with
             | H : _ && _ = true |- _ => apply andb_true_iff in H; destruct H
             end;
      now apply amount_at_four_digits. }
  rewrite E. exact IH.
Qed.

(** X21.  An amount written without separators is cut: from "You have
    received DDDD VND from S", where the amount is four or more digits,
    the amount read back is its last three digits. *)
Theorem extractAmount_unseparated (p t sender : string) :
  all_chars is_digit p = true ->
  group_ok t = true ->
  extractAmount (announcement (p ++ t) sender) = t.
Proof.
  intros Hp Ht. unfold extractAmount, announcement.
  cbn [String.append].
  repeat (rewrite match_amount_skip by reflexivity).
  rewrite append_assoc, (match_amount_cut p t _ Hp Ht).
  assert (Hh : leading_ok t = true).
  { unfold group_ok in Ht. apply andb_true_iff in Ht. destruct Ht as [Hd Hl].
    apply Nat.eqb_eq in Hl. unfold leading_ok. now rewrite Hd, Hl. }
  pose proof (match_amount_hit _ _ (amount_at_announced t [] sender Hh eq_refl)) as E.
  cbn [grouped String.append] in E. rewrite append_nil_r in E.
  now rewrite E.
Qed.

(** The announcement starts with the ASCII words "You have received",
    which are lower-cased letter by letter whatever the amount and the
    sender are. *)
Lemma announcement_is_payment (amount sender : string) :
  includes (toLowerCase (announcement amount sender)) "received" = true.
Proof.
  destruct (toLowerCase_ascii_prefix "You have received"
              (" " ++ amount ++ " VND from " ++ sender) eq_refl) as [rest E].
  change (announcement amount sender)
    with ("You have received" ++ (" " ++ amount ++ " VND from " ++ sender))%string.
  rewrite E. apply includes_iff.
  exists "you have ", rest. reflexivity.
Qed.

Lemma amount_has_no_f (head : string) (groups : list string) :
  leading_ok head = true -> forallb group_ok groups = true ->
  all_chars not_f (head ++ grouped groups) = true.
Proof.
  intros Hh Hg.
  assert (D : forall d r, all_chars is_digit d = true -> all_chars not_f r = true ->
                          all_chars not_f (d ++ r) = true).
  { induction d as [|c d IH]; intros r Hd Hr; [exact Hr|].
    cbn [all_chars String.append] in *. apply andb_true_iff in Hd. destruct Hd as [Hc Hd].
    destruct (digit_is_plain c Hc) as (_ & _ & _ & _ & ->). now apply IH. }
  unfold leading_ok in Hh. apply andb_true_iff in Hh. destruct Hh as [Hh _].
  apply andb_true_iff in Hh. destruct Hh as [Hh _].
  apply D; [exact Hh|].
  induction groups as [|g gs IH]; [reflexivity|].
  cbn [forallb] in Hg. apply andb_true_iff in Hg. destruct Hg as [Hg1 Hg2].
  unfold group_ok in Hg1. apply andb_true_iff in Hg1. destruct Hg1 as [Hg1 _].
  cbn [grouped all_chars]. change (not_f ",") with true. apply D; [exact Hg1 | now apply IH].
Qed.

(** X22.  [processNotification] ignores a missing notification and a
    notification without text.  Given a MoMo notification whose text is an
    announcement "You have received A VND from S" with A in grouped form,
    it announces and reports the payment of A from the first word of S. *)
Theorem processNotification_reads_back (snap : State) (ok : bool) (n : Notification)
    (h : NotificationHook) (head : string) (groups : list string) (sender : string) :
  processNotification snap None ok h = h
  /\ (text n = None -> processNotification snap (Some n) ok h = h)
  /\ (isMoMoNotification (Some n) = true ->
      text n = Some (announcement (head ++ grouped groups) sender) ->
      leading_ok head = true -> forallb group_ok groups = true ->
      truthy (take_non_white sender) = true ->
      processNotification snap (Some n) ok h
      = announce snap ok (head ++ grouped groups) (take_non_white sender) h).
Proof.
  split; [reflexivity|]. split.
  - intros Ht. unfold processNotification, isPaymentNotification.
    rewrite Ht. cbn. now rewrite andb_false_r.
  - intros Hm Ht Hh Hg Hs. unfold processNotification.
    rewrite Hm. unfold isPaymentNotification. rewrite Ht.
    cbn [option_map opt_includes]. rewrite announcement_is_payment.
    cbn [orb andb].
    unfold extractAmount, extractSender.
    rewrite (match_amount_announced head groups sender Hh Hg).
    now rewrite (match_sender_announced _ sender (amount_has_no_f head groups Hh Hg) Hs).
Qed.

End Properties.

(** ** The theorems at concrete inputs

    Evaluation uses [ascii_lowering]: every string that is lower-cased
    below (a query, a device name, an English phrase, a message, a
    notification text) is ASCII, so every [LowerCasing] maps it alike. *)

(** C1: the defect.  [forceConnect] searches the registry, scans when
    nothing matches and searches again; but the second search and the
    test for an empty list read the device list of the render the call
    was made from, not the list the scan has just stored.
    - On the registry of the first render, which is empty,
      [forceConnect("Nonexistent-XYZ")] scans, leaves six devices in the
      store, and returns [false] with the No Devices Found dialog: no
      placeholder is made and no connection dialog is raised.
    - On the mounted registry [forceConnect("JBL")] scans; the scanned
      list holds "JBL Flip", which matches the query, yet the connection
      dialog is raised for a placeholder named "JBL", appended behind the
      scanned devices. *)
Theorem forceConnect_searches_stale_list :
  let on_empty := fst (forceConnectToDevice "Nonexistent-XYZ" varied initial_state) in
  let on_mounted := fst (forceConnectToDevice "JBL" varied mounted_state) in
  (devices initial_state = []
   /\ devices (snd on_empty) = fst (discover varied)
   /\ List.length (devices (snd on_empty)) = 6%nat
   /\ fst on_empty = false
   /\ alerts (snd on_empty) = [NoDevicesFound]
   /\ connectedDevice (snd on_empty) = None)
  /\ (find (matches "JBL") (devices mounted_state) = None
      /\ option_map name (find (matches "JBL") (fst (discover varied)))
         = Some (Some "JBL Flip")
      /\ fst on_mounted = true
      /\ alerts (snd on_mounted)
         = [SystemConnectionRequired
              (mkDevice (Some "JBL") "AB:CD:EF:01:23:56"
                        (Some "78:9A:BC:DE:F0:23") (Some false))]
      /\ map name (devices (snd on_mounted))
         = [Some "Generic Bluetooth Speaker"; Some "WYS-2301BT";
            Some "Portable Speaker"; Some "JBL Flip"; Some "Bose SoundLink";
            Some "Sony SRS-XB12"; Some "JBL"]
      /\ connectedDevice (snd on_mounted) = None).
Proof.
  vm_compute. repeat split.
Qed.

(** An added phrase whose key is no array index takes the last place. *)
Lemma translate_first_enumerated_witness :
  forallb plain_key [("See you", "Hẹn gặp lại")] = true
  /\ JsObject.entries
       (vietnamesePhrases (add_phrases [("See you", "Hẹn gặp lại")] initial_state))
     = insertion_order [("See you", "Hẹn gặp lại")].
Proof.
  split.
  - reflexivity.
  - apply (proj2 (proj2 (proj1 (proj2 (translate_first_enumerated
                           DEFAULT_VIETNAMESE_PHRASES
                           [("See you", "Hẹn gặp lại")] "see you soon"))))).
    reflexivity.
Defined.

(** C5, as stated, fails: after [addPhrase("7", "bảy")] the key "7" is
    enumerated before "hello", which was inserted first, so "hello 7" is
    translated to "bảy" and not to the value of the first inserted key
    that occurs in it. *)
Lemma translate_not_insertion_order :
  let adds := [("7", "bảy")] in
  let st := add_phrases adds initial_state in
  translate (vietnamesePhrases st) "hello 7" = "bảy"
  /\ first_match (insertion_order adds) "hello 7" = "Xin chào"
  /\ translate (vietnamesePhrases st) "hello 7"
     <> first_match (insertion_order adds) "hello 7".
Proof.
  vm_compute. repeat split; discriminate.
Qed.

(** The empty English phrase is refused; "Goodbye" overwrites "goodbye". *)
Lemma addPhrase_guard_witness :
  vietnamesePhrases (setCustomVietnamesePhrase "" "Tạm biệt" initial_state)
  = vietnamesePhrases initial_state
  /\ JsObject.get "goodbye"
       (vietnamesePhrases (setCustomVietnamesePhrase "Goodbye" "Hẹn gặp lại" initial_state))
     = Some "Hẹn gặp lại".
Proof.
  split.
  - apply (proj1 (addPhrase_guard "" "Tạm biệt" initial_state)).
    left. reflexivity.
  - refine (proj1 (proj2 (proj2 (addPhrase_guard "Goodbye" "Hẹn gặp lại" initial_state) _))).
    split; discriminate.
Defined.

(** C6, as stated, fails: an English phrase of one space is blank after
    trimming, yet it is accepted and the dictionary gains the key " ". *)
Lemma addPhrase_accepts_blank :
  let st' := setCustomVietnamesePhrase " " "Tạm biệt" initial_state in
  blank " " = true
  /\ alerts st' = [PhraseAdded " " "Tạm biệt"]
  /\ vietnamesePhrases st' <> vietnamesePhrases initial_state
  /\ JsObject.get " " (vietnamesePhrases st') = Some "Tạm biệt".
Proof.
  vm_compute. repeat split; discriminate.
Qed.

(** Right after mounting, no device is connected and [speak] is refused. *)
Lemma speak_requires_device_witness :
  ttsCalls (store (speak "hello" (reach MockTts [OpMount Hangs])))
  = ttsCalls (store (reach MockTts [OpMount Hangs])).
Proof.
  apply (speak_requires_device "hello" (reach MockTts [OpMount Hangs])).
  reflexivity.
Defined.

Lemma speaking_flag_settles_witness :
  settled (reach NativeTts two_rapid_speaks) = true
  /\ isSpeaking (store (reach NativeTts two_rapid_speaks)) = false
  /\ ttsCalls (store (reach NativeTts two_rapid_speaks))
     = ttsCalls (store (reach NativeTts [OpMount Hangs]))
       ++ [CallSpeak "Xin chào"; CallSpeak "Cảm ơn bạn"].
Proof.
  split; [|split].
  - vm_compute. reflexivity.
  - apply (speaking_flag_settles NativeTts two_rapid_speaks).
    vm_compute. reflexivity.
  - vm_compute. reflexivity.
Defined.

(** A run that appends three devices with fresh ids. *)
Lemma discover_ids_witness :
  NoDup (map id (fst (discover varied)))
  /\ List.length (fst (discover varied)) = 6%nat.
Proof.
  split; [|vm_compute; reflexivity].
  apply (discover_ids varied initial_state varied_ok).
  split.
  - vm_compute. repeat constructor; simpl; intuition discriminate.
  - vm_compute. intros d Hd. intuition (subst; simpl in *; discriminate).
Defined.

(** C8, as stated, fails: when every draw is 3/4 the scan appends three
    devices and each generated id is CC:CC:CC:CC:CC:CC, so the devices at
    positions 3 and 4 of the returned list carry the same id. *)
Lemma discover_repeats_id :
  let ds := fst (discover three_quarters) in
  tape_ok three_quarters
  /\ map id ds = [ "00:11:22:33:44:55"; "00:22:33:44:55:66"; "00:33:44:55:66:77";
                   "CC:CC:CC:CC:CC:CC"; "CC:CC:CC:CC:CC:CC"; "CC:CC:CC:CC:CC:CC" ]
  /\ option_map id (nth_error ds 3) = option_map id (nth_error ds 4)
  /\ ~ NoDup (map id ds).
Proof.
  split; [exact three_quarters_ok|].
  split; [vm_compute; reflexivity|].
  split; [vm_compute; reflexivity|].
  intros H.
  assert (E : map id (fst (discover three_quarters))
              = [ "00:11:22:33:44:55"; "00:22:33:44:55:66"; "00:33:44:55:66:77";
                  "CC:CC:CC:CC:CC:CC"; "CC:CC:CC:CC:CC:CC"; "CC:CC:CC:CC:CC:CC" ])
    by (vm_compute; reflexivity).
  rewrite E in H.
  do 3 (apply NoDup_cons_iff in H; destruct H as [_ H]).
  apply NoDup_cons_iff in H. destruct H as [H _].
  apply H. left. reflexivity.
Qed.

(** An engine that never answers: the fallback, at 3000 ms.  An engine
    that answers after 120 ms with no voice: the empty list, at 120 ms. *)
Lemma listVoices_fallback_witness :
  fst (detectVoices Hangs) = VOICE_TIMEOUT
  /\ snd (detectVoices Hangs) = VoiceArray [Some fallbackVoice]
  /\ detectVoices (Resolves 120 Falsy) = (120%N, VoiceArray []).
Proof.
  split; [|split].
  - apply (proj1 (proj2 (proj2 (proj2 (proj2 (proj2
             (listVoices_fallback Hangs initial_state)))))) eq_refl).
  - apply (listVoices_fallback Hangs initial_state). left. reflexivity.
  - apply (proj1 (proj2 (proj2 (proj2 (proj2
             (listVoices_fallback (Resolves 120 Falsy) initial_state)))))
             120%N Falsy eq_refl).
    reflexivity.
Defined.

(** An engine with an English and a French voice, one of them twice. *)
Lemma languages_include_vietnamese_witness :
  fst (getAvailableLanguages NativeTts
         (Resolves 120 (VoiceArray
            [ Some (Voice.mk None (Some "Samantha") (Some "en-US") None None);
              None;
              Some (Voice.mk None (Some "Thomas") (Some "fr-FR") None None);
              Some (Voice.mk None (Some "Alex") (Some "en-US") None None);
              Some (Voice.mk None (Some "Nameless") None None None) ]))
         initial_state)
  = ["en-US"; "fr-FR"; "vi-VN"]
  /\ fst (getAvailableLanguages NativeTts (Resolves 120 NotArray) initial_state)
     = ["vi-VN"; "en-US"].
Proof.
  split.
  - apply (proj1 (proj2 (proj2 (proj2
      (languages_include_vietnamese NativeTts _ initial_state))))
      [ Some (Voice.mk None (Some "Samantha") (Some "en-US") None None);
        None;
        Some (Voice.mk None (Some "Thomas") (Some "fr-FR") None None);
        Some (Voice.mk None (Some "Alex") (Some "en-US") None None);
        Some (Voice.mk None (Some "Nameless") None None None) ]).
    reflexivity.
  - apply (languages_include_vietnamese NativeTts (Resolves 120 NotArray) initial_state).
    reflexivity.
Defined.

(** The tape of varied draws gives a well-formed identifier. *)
Lemma generateRandomId_shape_witness :
  String.length (fst (generateRandomId varied)) = 17%nat.
Proof.
  apply (generateRandomId_shape varied varied_ok).
Defined.

(** The tape of varied draws appends all three. *)
Lemma discover_appends_prefix_witness :
  existsb (named "Anker Soundcore") (fst (discover varied)) = false.
Proof.
  destruct (discover_appends_prefix varied varied_ok) as (n & _ & _ & _ & _ & H).
  exact H.
Defined.

(** On the mounted registry, connecting the second baseline device. *)
Lemma connect_single_witness :
  connected_count
    (connect (mkDevice (Some "WYS-2301BT") "00:22:33:44:55:66"
                       (Some "00:22:33:44:55:66") (Some false)) mounted_state)
  = 1%nat.
Proof.
  apply (connect_single _ mounted_state).
  - reflexivity.
  - cbn. repeat constructor; cbn; intuition discriminate.
  - cbn. right. left. reflexivity.
Defined.

Lemma connect_disconnect_roundtrip_witness :
  devices
    (disconnectDevice
       (connect (mkDevice (Some "Portable Speaker") "00:33:44:55:66:77"
                          (Some "00:33:44:55:66:77") (Some false)) mounted_state))
  = devices mounted_state.
Proof.
  apply (connect_disconnect_roundtrip _ mounted_state). reflexivity.
Defined.

(** A device that only an earlier scan had listed. *)
Lemma connect_unlisted_witness :
  connected_count
    (connect (mkDevice (Some "JBL Flip") "12:34:56:78:9A:BD" None (Some false))
             mounted_state)
  = 0%nat.
Proof.
  apply (connect_unlisted _ mounted_state).
  cbn. intuition discriminate.
Defined.

Lemma forceConnect_empty_query_witness :
  matches "" (mkDevice (Some "WYS-2301BT") "00:22:33:44:55:66" None (Some false)) = true.
Proof.
  apply (proj1 (proj2 (forceConnect_empty_query varied initial_state))
           _ "WYS-2301BT"); reflexivity.
Defined.

(** "Hello world" is shadowed by the built-in "hello". *)
Lemma addPhrase_shadowed_witness :
  translate
    (vietnamesePhrases
       (setCustomVietnamesePhrase "Hello world" "Chào thế giới" initial_state))
    "Hello world"
  = "Xin chào".
Proof.
  rewrite (addPhrase_shadowed "Hello world" "Chào thế giới" "hello" initial_state);
    try reflexivity; discriminate.
Defined.

Lemma dictionary_keys_invariant_witness :
  JsObject.has_key "hello"
    (vietnamesePhrases
       (store (reach MockTts [OpAddPhrase "7" "bảy"; OpAddPhrase "Hello" "Chào"])))
  = true.
Proof.
  apply (dictionary_keys_invariant MockTts
           [OpAddPhrase "7" "bảy"; OpAddPhrase "Hello" "Chào"]).
  cbn. left. reflexivity.
Defined.

Lemma languages_distinct_witness :
  In "fr-FR"
    (fst (getAvailableLanguages NativeTts
            (Resolves 120 (VoiceArray
               [ Some (Voice.mk None (Some "Thomas") (Some "fr-FR") None None);
                 Some (Voice.mk None (Some "Amelie") (Some "fr-FR") None None) ]))
            initial_state)).
Proof.
  apply (proj2 (proj2 (languages_distinct NativeTts _ initial_state))
           [ Some (Voice.mk None (Some "Thomas") (Some "fr-FR") None None);
             Some (Voice.mk None (Some "Amelie") (Some "fr-FR") None None) ]
           (Voice.mk None (Some "Thomas") (Some "fr-FR") None None) "fr-FR").
  - reflexivity.
  - left. reflexivity.
  - reflexivity.
  - discriminate.
Defined.

Lemma initTts_languages_witness :
  NoDup (availableLanguages (initTts NativeTts Hangs initial_state)).
Proof.
  apply (initTts_languages NativeTts Hangs Hangs initial_state). constructor.
Defined.

Lemma requestPermissions_outcome_witness :
  fst (requestPermissions (mkPlatform Android 34) Denied (notification_start Active)) = false
  /\ hasPermission
       (snd (requestPermissions (mkPlatform IOS 17) Granted (notification_start Active)))
     = true.
Proof.
  split.
  - apply (proj1 (requestPermissions_outcome (mkPlatform Android 34) Denied
                    (notification_start Active))).
    cbn. repeat split; [lia | now left].
  - apply (proj1 (proj2 (proj2 (requestPermissions_outcome (mkPlatform IOS 17) Granted
                                  (notification_start Active))))).
    reflexivity.
Defined.

Lemma simulatePayment_picks_witness :
  exists amount sender,
    In amount amounts /\ In sender senders
    /\ payments (fst (simulatePaymentNotification initial_state varied true
                        (notification_start Active)))
       = [(amount, sender)].
Proof.
  destruct (simulatePayment_picks initial_state varied true (notification_start Active)
              varied_ok) as (amount & sender & Ha & Hs & _ & Hp & _).
  exists amount, sender. repeat split; assumption.
Defined.

Lemma handleAddPhrase_screen_witness :
  JsObject.get " see you "
    (vietnamesePhrases
       (store (hook (handleAddPhrase
                       (mkScreen (at_rest mounted_state) "" false
                                 " See you " "Hẹn gặp lại" [] [])))))
  = Some "Hẹn gặp lại"
  /\ handleAddPhrase (mkScreen (at_rest mounted_state) "" false "  " "Hẹn gặp lại" [] [])
     = screen_dialog MissingInformation
         (mkScreen (at_rest mounted_state) "" false "  " "Hẹn gặp lại" [] []).
Proof.
  split.
  - rewrite (proj1 (proj1 (proj2 (handleAddPhrase_screen
               (mkScreen (at_rest mounted_state) "" false
                         " See you " "Hẹn gặp lại" [] []))) (conj eq_refl eq_refl))).
    apply JsObjectFacts.get_set_same.
  - apply (proj1 (handleAddPhrase_screen
                    (mkScreen (at_rest mounted_state) "" false "  " "Hẹn gặp lại" [] []))).
    left. reflexivity.
Defined.

Lemma handleSpeak_calls_witness :
  ttsCalls
    (store (hook (handleSpeak true
                    (mkScreen
                       (at_rest (connect (mkDevice (Some "WYS-2301BT") "00:22:33:44:55:66"
                                                   (Some "00:22:33:44:55:66") (Some false))
                                         mounted_state))
                       "Thank you very much" false "" "" [] []))))
  = [CallSpeak "Cảm ơn bạn"].
Proof.
  exact (proj2 (handleSpeak_calls true
                  (mkScreen
                     (at_rest (connect (mkDevice (Some "WYS-2301BT") "00:22:33:44:55:66"
                                                 (Some "00:22:33:44:55:66") (Some false))
                                       mounted_state))
                     "Thank you very much" false "" "" [] [])) eq_refl).
Defined.

(** After two connections the registry flags two devices, the screen
    marks one. *)
Lemma connected_badge_unique_witness :
  let d0 := mkDevice (Some "Generic Bluetooth Speaker") "00:11:22:33:44:55"
                     (Some "00:11:22:33:44:55") (Some false) in
  let d1 := mkDevice (Some "WYS-2301BT") "00:22:33:44:55:66"
                     (Some "00:22:33:44:55:66") (Some false) in
  let st := connect d0 mounted_state in
  count (shows_connected (connect d1 st)) (devices (connect d1 st)) = 1%nat
  /\ connected_count (connect d1 st) = 2%nat.
Proof.
  intros d0 d1 st. split; [|reflexivity].
  apply (connected_badge_unique d1 st).
  - cbn. repeat constructor; cbn; intuition discriminate.
  - cbn. right. left. reflexivity.
Defined.

Lemma extractSender_roundtrip_witness :
  extractSender (announcement "50,000" "Demo User") = "Demo".
Proof.
  apply (extractSender_roundtrip "50,000" "Demo User"); reflexivity.
Defined.

Lemma extractAmount_roundtrip_witness :
  extractAmount (announcement "1,234,567" "Jane Smith") = "1,234,567".
Proof.
  apply (extractAmount_roundtrip "1" ["234"; "567"] "Jane Smith"); reflexivity.
Defined.

(** 50000 VND is read back as 000. *)
Lemma extractAmount_unseparated_witness :
  extractAmount (announcement "50000" "Demo User") = "000".
Proof.
  apply (extractAmount_unseparated "50" "000" "Demo User"); reflexivity.
Defined.

Lemma processNotification_reads_back_witness :
  payments
    (processNotification initial_state
       (Some (mkNotification (Some "com.mservice.momotransfer") None
                             (Some (announcement "75,000" "John Doe"))))
       true (notification_start Active))
  = [("75,000", "John")].
Proof.
  rewrite (proj2 (proj2 (processNotification_reads_back initial_state true
             (mkNotification (Some "com.mservice.momotransfer") None
                             (Some (announcement "75,000" "John Doe")))
             (notification_start Active) "75" ["000"] "John Doe"))
             eq_refl eq_refl eq_refl eq_refl eq_refl).
  reflexivity.
Defined.
